(** * watcher.py: the blue/green log watcher

    A shallow embedding of [src/watcher.py] (class [LogWatcher]) and the
    properties of its rolling window, pool tracking, alert gate and line
    processing.

    Modelling choices.
    - Error rates and the error threshold are IEEE-754 binary64 numbers, as
      Python floats are: Rocq's primitive floats, evaluated by the kernel.
    - A reading of [time.time()] is a rational number of seconds.  Every
      finite float is one, and the only arithmetic the code does on readings
      is [now - last]: with [last = 0], or with [last <= now <= 2 * last]
      as for two readings of the epoch clock, that binary64 difference is
      exact, so the comparison with [cooldown_sec] is the comparison of the
      rationals.
    - [json.loads], [time.time], the logger and the Slack transport are not
      code of this repository.  A line enters the model as the outcome of
      [json.loads(line.strip())]: a value, [JSONDecodeError], or another
      exception of the call, which no clause of the loop catches; the clock
      is a tape of readings, one per call; logger calls and dispatched
      alerts are appended to traces.
    - JSON field values are the scalars [None], booleans, integers and
      strings, for which [str()], truthiness and [!=] are spelled out.
      A string is a sequence of code points below 256.  Floats, lists and
      dicts as field values are outside the model; among them [NaN] differs
      from itself, so the statements on the tracked pool are put in terms of
      [!=] as the code evaluates it and do not take a value to be equal to
      itself, strings apart.
    - A count becomes a float through a 63-bit integer, which is exact for
      every window shorter than [2^53]. *)

From Stdlib Require Import ZArith QArith Lqa Floats Uint63 String Ascii List Lia Bool DecimalString.
From stdpp Require Import gmap strings.

Open Scope string_scope.
Open Scope list_scope.

(** ** Python values and the string methods the watcher calls *)

Module Py.

Inductive pyval :=
| PNone
| PBool (b : bool)
| PInt (z : Z)
| PStr (s : string).

(** [if v:] *)
Definition truthy (v : pyval) : bool :=
  match v with
  | PNone => false
  | PBool b => b
  | PInt z => negb (z =? 0)%Z
  | PStr s => negb (String.eqb s "")
  end.

(** The number a bool or an int compares as ([True == 1]). *)
Definition as_number (v : pyval) : option Z :=
  match v with
  | PBool b => Some (if b then 1 else 0)%Z
  | PInt z => Some z
  | _ => None
  end.

(** [a == b] *)
Definition equals (a b : pyval) : bool :=
  match a, b with
  | PNone, PNone => true
  | PStr s, PStr t => String.eqb s t
  | _, _ =>
      match as_number a, as_number b with
      | Some x, Some y => (x =? y)%Z
      | _, _ => false
      end
  end.

(** [a != b] *)
Definition differs (a b : pyval) : bool := negb (equals a b).

(** [str(v)] *)
Definition str (v : pyval) : string :=
  match v with
  | PNone => "None"
  | PBool true => "True"
  | PBool false => "False"
  | PInt z => NilZero.string_of_int (Z.to_int z)
  | PStr s => s
  end.

(** [s.startswith(p)] *)
Definition startswith (p s : string) : bool := String.prefix p s.

(** White space as [str.strip()] sees it, for code points below 256. *)
Definition isspace (c : ascii) : bool :=
  let n := nat_of_ascii c in
  ((9 <=? n)%nat && (n <=? 13)%nat) || ((28 <=? n)%nat && (n <=? 32)%nat)
  || (n =? 133)%nat || (n =? 160)%nat.

Fixpoint lstrip (s : string) : string :=
  match s with
  | EmptyString => EmptyString
  | String c rest => if isspace c then lstrip rest else s
  end.

Fixpoint rstrip (s : string) : string :=
  match s with
  | EmptyString => EmptyString
  | String c rest =>
      match rstrip rest with
      | EmptyString => if isspace c then EmptyString else String c EmptyString
      | kept => String c kept
      end
  end.

(** [s.strip()] *)
Definition strip (s : string) : string := rstrip (lstrip s).

(** [s.split(sep)] for a non-empty [sep]: the separators are found from the
    left and do not overlap.  [skip] counts the characters of a separator
    that was just matched and are still to be passed over; [tok] is the
    token read so far. *)
Fixpoint split_from (sep : string) (skip : nat) (tok s : string) : list string :=
  match s with
  | EmptyString => [tok]
  | String c rest =>
      match skip with
      | S k => split_from sep k tok rest
      | O =>
          if String.prefix sep s
          then tok :: split_from sep (String.length sep - 1) EmptyString rest
          else split_from sep 0 (tok ++ String c EmptyString)%string rest
      end
  end.

Definition split (sep s : string) : list string := split_from sep 0 EmptyString s.

(** [sep.join(l)] *)
Fixpoint join (sep : string) (l : list string) : string :=
  match l with
  | [] => EmptyString
  | [x] => x
  | x :: rest => (x ++ sep ++ join sep rest)%string
  end.

(** [sep] occurs in [s]. *)
Definition occurs (sep s : string) : Prop :=
  exists pre post, s = (pre ++ sep ++ post)%string.

(** [float(n)] for a count [n] (exact below [2^53]). *)
Definition float_of_nat (n : nat) : float :=
  PrimFloat.of_uint63 (Uint63.of_Z (Z.of_nat n)).

Inductive exn :=
| AttributeError
| ZeroDivisionError
| RecursionError
| ValueError.

Inductive outcome (A : Type) :=
| Ok (a : A)
| Raise (e : exn).
Arguments Ok {A} a.
Arguments Raise {A} e.

(** [a / b] on two counts: true division, which raises on a zero divisor. *)
Definition truediv (a b : nat) : outcome float :=
  if (b =? 0)%nat then Raise ZeroDivisionError
  else Ok (float_of_nat a / float_of_nat b)%float.

(** [x < y] on clock readings. *)
Definition Qltb (x y : Q) : bool := negb (Qle_bool y x).

End Py.

Import Py.

(** ** [collections.deque(maxlen=n)] *)

Module Deque.

Record deque := { maxlen : nat; items : list bool }.

Definition empty (n : nat) : deque := {| maxlen := n; items := [] |}.

(** [d.append(x)]: the element goes to the right end, and when the length
    then exceeds [maxlen] the leftmost element is dropped. *)
Definition append (d : deque) (x : bool) : deque :=
  let l := items d ++ [x] in
  {| maxlen := maxlen d;
     items := if (maxlen d <? length l)%nat then tl l else l |}.

Definition len (d : deque) : nat := length (items d).

(** The deque after pushing [xs], first to last, on an empty one. *)
Definition pushes (n : nat) (xs : list bool) : deque :=
  fold_left append xs (empty n).

End Deque.

(** ** What the watcher emits *)

Inductive alert_type := failover | error_rate.

#[global] Instance alert_type_eq_dec : EqDecision alert_type.
Proof. solve_decision. Defined.

(** The [message] argument of [send_slack_alert]; number formatting is kept
    symbolic. *)
Inductive message :=
| TrafficSwitched (previous current : pyval)
    (* f"Traffic switched from '{self.last_pool}' to '{pool}'." *)
| HighErrorRate (rate : float) (total : nat).
    (* f"High error rate detected: {rate:.2f}% over the last {total} requests." *)

(** A value of the [details] dict. *)
Inductive detail :=
| DValue (v : pyval)
| DText (s : string)
| DCount (n : nat)
| DPercent2 (x : float)   (* f"{x:.2f}%" *)
| DPercent (x : float).   (* f"{x}%" *)

Record alert := {
  alert_kind : alert_type;
  alert_message : message;
  alert_details : list (string * detail)
}.

Inductive log_record :=
| InitialPoolDetected (pool : pyval)           (* info *)
| FailoverWarning (m : message)                (* warning "[FAILOVER] ..." *)
| ErrorRateWarning (m : message)               (* warning "[ERROR RATE] ..." *)
| MaintenanceSuppressed (k : alert_type)       (* info "[MAINTENANCE MODE] ..." *)
| WatcherError (e : exn).                      (* error, before the re-raise *)

(** ** The watcher object and the world it runs in *)

Record LogWatcher := {
  error_threshold : float;
  window_size : nat;
  cooldown_sec : Z;
  maintenance_mode : bool;
  last_pool : pyval;
  request_window : Deque.deque;
  last_failover_alert : Q;
  last_error_rate_alert : Q
}.

(** [LogWatcher.__init__], the environment variables already read. *)
Definition init (threshold : float) (window : nat) (cooldown : Z) (maintenance : bool)
  : LogWatcher :=
  {| error_threshold := threshold;
     window_size := window;
     cooldown_sec := cooldown;
     maintenance_mode := maintenance;
     last_pool := PNone;
     request_window := Deque.empty window;
     last_failover_alert := 0;
     last_error_rate_alert := 0 |}.

Definition with_last_pool (p : pyval) (o : LogWatcher) : LogWatcher :=
  {| error_threshold := error_threshold o;
     window_size := window_size o;
     cooldown_sec := cooldown_sec o;
     maintenance_mode := maintenance_mode o;
     last_pool := p;
     request_window := request_window o;
     last_failover_alert := last_failover_alert o;
     last_error_rate_alert := last_error_rate_alert o |}.

Definition with_request_window (d : Deque.deque) (o : LogWatcher) : LogWatcher :=
  {| error_threshold := error_threshold o;
     window_size := window_size o;
     cooldown_sec := cooldown_sec o;
     maintenance_mode := maintenance_mode o;
     last_pool := last_pool o;
     request_window := d;
     last_failover_alert := last_failover_alert o;
     last_error_rate_alert := last_error_rate_alert o |}.

Definition with_last_failover_alert (t : Q) (o : LogWatcher) : LogWatcher :=
  {| error_threshold := error_threshold o;
     window_size := window_size o;
     cooldown_sec := cooldown_sec o;
     maintenance_mode := maintenance_mode o;
     last_pool := last_pool o;
     request_window := request_window o;
     last_failover_alert := t;
     last_error_rate_alert := last_error_rate_alert o |}.

Definition with_last_error_rate_alert (t : Q) (o : LogWatcher) : LogWatcher :=
  {| error_threshold := error_threshold o;
     window_size := window_size o;
     cooldown_sec := cooldown_sec o;
     maintenance_mode := maintenance_mode o;
     last_pool := last_pool o;
     request_window := request_window o;
     last_failover_alert := last_failover_alert o;
     last_error_rate_alert := t |}.

(** The world: the object, the clock tape with the number of readings taken,
    the logger's records and the alerts handed to the transport (the Slack
    webhook, or the log when no webhook is configured), oldest first. *)
Record world := {
  self : LogWatcher;
  clock : nat -> Q;
  ticks : nat;
  log : list log_record;
  sink : list alert
}.

Definition boot (o : LogWatcher) (c : nat -> Q) : world :=
  {| self := o; clock := c; ticks := 0; log := []; sink := [] |}.

(** ** A state and exception monad *)

Definition M (A : Type) : Type := world -> outcome A * world.

Definition ret {A} (a : A) : M A := fun w => (Ok a, w).

Definition bind {A B} (m : M A) (k : A -> M B) : M B :=
  fun w =>
    match m w with
    | (Ok a, w') => k a w'
    | (Raise e, w') => (Raise e, w')
    end.

Definition raise {A} (e : exn) : M A := fun w => (Raise e, w).

Definition lift {A} (r : outcome A) : M A := fun w => (r, w).

Notation "x <- m ;; k" := (bind m (fun x => k))
  (at level 100, m at next level, right associativity).
Notation "m ;;; k" := (bind m (fun _ => k))
  (at level 100, right associativity).

Definition map_self (f : LogWatcher -> LogWatcher) (w : world) : world :=
  {| self := f (self w); clock := clock w; ticks := ticks w;
     log := log w; sink := sink w |}.

Definition add_log (r : log_record) (w : world) : world :=
  {| self := self w; clock := clock w; ticks := ticks w;
     log := log w ++ [r]; sink := sink w |}.

Definition add_sink (a : alert) (w : world) : world :=
  {| self := self w; clock := clock w; ticks := ticks w;
     log := log w; sink := sink w ++ [a] |}.

Definition tick (w : world) : world :=
  {| self := self w; clock := clock w; ticks := S (ticks w);
     log := log w; sink := sink w |}.

Definition get_self : M LogWatcher := fun w => (Ok (self w), w).

Definition modify_self (f : LogWatcher -> LogWatcher) : M unit :=
  fun w => (Ok tt, map_self f w).

(** [time.time()] *)
Definition time_time : M Q := fun w => (Ok (clock w (ticks w)), tick w).

Definition logger (r : log_record) : M unit := fun w => (Ok tt, add_log r w).

(** The payload leaves for the transport. *)
Definition dispatch (a : alert) : M unit := fun w => (Ok tt, add_sink a w).

(** On an exception: log it and raise it again. *)
Definition log_and_reraise {A} (m : M A) : M A :=
  fun w =>
    match m w with
    | (Ok a, w') => (Ok a, w')
    | (Raise e, w') => (Raise e, add_log (WatcherError e) w')
    end.

(** ** The methods of [LogWatcher] *)

(** [send_slack_alert] (lines 38-92).  [suppressed] is the early [return] of
    a cooldown branch. *)
Definition send_slack_alert (kind : alert_type) (msg : message)
    (details : list (string * detail)) : M unit :=
  now <- time_time ;;
  o <- get_self ;;
  if maintenance_mode o then logger (MaintenanceSuppressed kind)
  else
    suppressed <-
      match kind with
      | failover =>
          if Qltb (now - last_failover_alert o) (inject_Z (cooldown_sec o))
          then ret true
          else (modify_self (with_last_failover_alert now) ;;; ret false)
      | error_rate =>
          if Qltb (now - last_error_rate_alert o) (inject_Z (cooldown_sec o))
          then ret true
          else (modify_self (with_last_error_rate_alert now) ;;; ret false)
      end ;;
    if suppressed : bool then ret tt
    else dispatch {| alert_kind := kind; alert_message := msg;
                     alert_details := details |}.

Definition failover_details (previous current : pyval) : list (string * detail) :=
  [ ("Previous Pool", DValue previous);
    ("Current Pool", DValue current);
    ("Recommended Action",
     DText "Verify that the new pool is stable and responding correctly.") ].

(** [check_failover] (lines 95-113) *)
Definition check_failover (pool : pyval) : M unit :=
  o <- get_self ;;
  match last_pool o with
  | PNone =>
      modify_self (with_last_pool pool) ;;;
      logger (InitialPoolDetected pool)
  | previous =>
      if truthy pool && Py.differs pool previous then
        let msg := TrafficSwitched previous pool in
        logger (FailoverWarning msg) ;;;
        send_slack_alert failover msg (failover_details previous pool) ;;;
        modify_self (with_last_pool pool)
      else ret tt
  end.

(** [sum(1 for x in window if x)] *)
Definition count_errors (window : list bool) : nat :=
  list_sum (map (fun _ => 1%nat) (List.filter (fun x : bool => x) window)).

(** [(errors / total) * 100] over a window (lines 123-125). *)
Definition rate (window : list bool) : outcome float :=
  match truediv (count_errors window) (length window) with
  | Ok q => Ok (q * 100)%float
  | Raise e => Raise e
  end.

Definition error_rate_details (rate threshold : float) (errors total : nat)
  : list (string * detail) :=
  [ ("Error Rate", DPercent2 rate);
    ("Threshold", DPercent threshold);
    ("Errors", DCount errors);
    ("Total Requests", DCount total);
    ("Suggested Action",
     DText "Inspect backend health and consider rerouting traffic.") ].

(** [check_error_rate] (lines 116-137) *)
Definition check_error_rate : M unit :=
  o <- get_self ;;
  let window := Deque.items (request_window o) in
  if (length window <? 20)%nat then ret tt
  else
    let total := length window in
    let errors := count_errors window in
    r <- lift (rate window) ;;
    if (error_threshold o <? r)%float then
      let msg := HighErrorRate r total in
      logger (ErrorRateWarning msg) ;;;
      send_slack_alert error_rate msg
        (error_rate_details r (error_threshold o) errors total)
    else ret tt.

(** ** [tail_log] *)

(** What [json.loads] returns. *)
Inductive json :=
| JObject (fields : gmap string pyval)
| JArray (elements : list pyval)
| JScalar (v : pyval).

(** The outcome of [json.loads(line.strip())] for one line read: the value
    decoded, [JSONDecodeError], or another exception that the call raises
    ([RecursionError] on input nested too deep, [ValueError] on an integer
    literal beyond the digit limit).  A read that returns no data only sleeps
    and retries: it is no line. *)
Inductive loads :=
| JSONDecodeError
| Loaded (v : json)
| LoadsRaised (e : exn).

(** [log_entry.get(key, default)]; only a dict has the method. *)
Definition get (log_entry : json) (key : string) (dflt : pyval) : M pyval :=
  match log_entry with
  | JObject fields => ret (default dflt (fields !! key))
  | _ => raise AttributeError
  end.

(** Lines 167-169. *)
Definition had_error_of (upstream_status : pyval) : bool :=
  if truthy upstream_status then
    let statuses := split ", " (Py.str upstream_status) in
    existsb (startswith "5")
            (List.filter (fun s => truthy (PStr (strip s))) statuses)
  else false.

(** Lines 173-174. *)
Definition observe_pool (pool : pyval) : M unit :=
  if truthy pool then check_failover pool else ret tt.

(** The body of the [try] (lines 162-176) for one line read. *)
Definition process_line (line : loads) : M unit :=
  match line with
  | JSONDecodeError => ret tt          (* except json.JSONDecodeError: continue *)
  | LoadsRaised e => raise e           (* no other [except] clause in the loop *)
  | Loaded log_entry =>
      pool <- get log_entry "pool" (PStr "") ;;
      upstream_status <- get log_entry "upstream_status" (PStr "") ;;
      let had_error := had_error_of upstream_status in
      modify_self (fun o =>
        with_request_window (Deque.append (request_window o) had_error) o) ;;;
      observe_pool pool ;;;
      check_error_rate
  end.

(** The [while True] loop over the lines read, one after the other. *)
Fixpoint read_loop (lines : list loads) : M unit :=
  match lines with
  | [] => ret tt
  | line :: rest => process_line line ;;; read_loop rest
  end.

(** [tail_log]: the loop inside [except Exception as e: ...; raise].  An
    interrupt from the keyboard, the one way the method returns, is not a
    line and is not modelled. *)
Definition tail_log (lines : list loads) : M unit :=
  log_and_reraise (read_loop lines).

(** ** Readings of the model used in the statements *)

(** [lastFiredAt[kind]] *)
Definition last_fired (k : alert_type) (o : LogWatcher) : Q :=
  match k with
  | failover => last_failover_alert o
  | error_rate => last_error_rate_alert o
  end.

Definition record_firing (k : alert_type) (now : Q) (o : LogWatcher) : LogWatcher :=
  match k with
  | failover => with_last_failover_alert now o
  | error_rate => with_last_error_rate_alert now o
  end.

(** The decision lines 44-55 take, as a function of the object and of the
    clock reading: [true] when the alert goes out. *)
Definition should_fire (o : LogWatcher) (k : alert_type) (now : Q) : bool :=
  negb (maintenance_mode o)
  && negb (Qltb (now - last_fired k o) (inject_Z (cooldown_sec o))).

(** The reading the next call of [time.time()] returns. *)
Definition next_reading (w : world) : Q := clock w (ticks w).

(** [(errors / total) * 100] in binary64: the quotient is rounded, then the
    product. *)
Definition percent (errors total : nat) : float :=
  (float_of_nat errors / float_of_nat total * 100)%float.

(** What no method assigns after [__init__]. *)
Definition settings (o : LogWatcher) : float * nat * Z * bool :=
  (error_threshold o, window_size o, cooldown_sec o, maintenance_mode o).

(** The window held by the watcher. *)
Definition window_of (w : world) : list bool :=
  Deque.items (request_window (self w)).

(** [sep in s] *)
Fixpoint contains (sep s : string) : bool :=
  String.prefix sep s
  || match s with
     | EmptyString => false
     | String _ rest => contains sep rest
     end.

(** The value [tail_log] pushes on the window for a decoded object. *)
Definition had_error_entry (fields : gmap string pyval) : bool :=
  had_error_of (default (PStr "") (fields !! "upstream_status")).

Definition pool_entry (fields : gmap string pyval) : pyval :=
  default (PStr "") (fields !! "pool").

(** The values [read_loop] pushes on the window for the lines read: one per
    decoded object, up to the first line that decodes to something else or
    on which [json.loads] raises another exception. *)
Fixpoint pushed (lines : list loads) : list bool :=
  match lines with
  | [] => []
  | JSONDecodeError :: rest => pushed rest
  | Loaded (JObject fields) :: rest => had_error_entry fields :: pushed rest
  | Loaded _ :: _ => []
  | LoadsRaised _ :: _ => []
  end.

(** The line read when [json.loads] returns the dict [fields]. *)
Definition object_line (fields : gmap string pyval) : loads :=
  Loaded (JObject fields).

(** A line whose pool, if it has one, is [p]. *)
Definition pool_is (p : pyval) (fields : gmap string pyval) : Prop :=
  truthy (pool_entry fields) = false \/ pool_entry fields = p.

(** From [w] to [w'] no clock reading was taken, nothing was sent, and the
    object differs at most in the window and in [last_pool], which is unset
    or [p]. *)
Definition calm (p : pyval) (w w' : world) : Prop :=
  sink w' = sink w
  /\ ticks w' = ticks w
  /\ clock w' = clock w
  /\ settings (self w') = settings (self w)
  /\ last_error_rate_alert (self w') = last_error_rate_alert (self w)
  /\ (last_pool (self w') = PNone \/ last_pool (self w') = p).

(** A method that returns normally and assigns neither a setting nor the
    window. *)
Definition keeps_window (m : M unit) : Prop :=
  forall w,
    fst (m w) = Ok tt
    /\ settings (self (snd (m w))) = settings (self w)
    /\ request_window (self (snd (m w))) = request_window (self w)
    /\ clock (snd (m w)) = clock w.

(** ** The spec's components, from its words *)

Module Spec.

(** Section 4.2, [TransitionResult]. *)
Inductive TransitionResult :=
| Initial (pool : pyval)
| NoChange
| Transition (old new : pyval).

(** Section 4.2, [PoolTracker.observe]: an absent or empty value is never
    applied; an unset tracker takes the value and yields [Initial]; an
    equal value yields [NoChange]; any other yields [Transition]. *)
Definition observe (tracked pool : pyval) : TransitionResult * pyval :=
  if negb (truthy pool) then (NoChange, tracked)
  else
    match tracked with
    | PNone => (Initial pool, pool)
    | _ =>
        if Py.equals pool tracked then (NoChange, tracked)
        else (Transition tracked pool, pool)
    end.

(** Section 4.1, [rate()]: [100 * count(true) / length], in the floats of
    the code. *)
Definition rate (k n : nat) : float :=
  (100 * float_of_nat k / float_of_nat n)%float.

End Spec.

(** * The run as a function on the world

    Closed forms of the methods (each is proved equal to the monadic method
    it stands for) and the invariants a run of [tail_log] keeps. *)

(** The world a call of [send_slack_alert] leaves. *)
Definition gate (k : alert_type) (a : alert) (w : world) : world :=
  if maintenance_mode (self w) then add_log (MaintenanceSuppressed k) (tick w)
  else if Qltb (next_reading w - last_fired k (self w))
               (inject_Z (cooldown_sec (self w)))
       then tick w
       else add_sink a (map_self (record_firing k (next_reading w)) (tick w)).

Definition failover_alert (previous current : pyval) : alert :=
  {| alert_kind := failover;
     alert_message := TrafficSwitched previous current;
     alert_details := failover_details previous current |}.

Definition error_rate_alert (threshold : float) (errors total : nat) : alert :=
  {| alert_kind := error_rate;
     alert_message := HighErrorRate (percent errors total) total;
     alert_details :=
       error_rate_details (percent errors total) threshold errors total |}.

(** The world lines 173-174 leave. *)
Definition pool_step (pool : pyval) (w : world) : world :=
  let previous := last_pool (self w) in
  if truthy pool then
    match previous with
    | PNone => add_log (InitialPoolDetected pool) (map_self (with_last_pool pool) w)
    | _ =>
        if Py.differs pool previous then
          map_self (with_last_pool pool)
            (gate failover (failover_alert previous pool)
               (add_log (FailoverWarning (TrafficSwitched previous pool)) w))
        else w
    end
  else w.

(** The world [check_error_rate] leaves. *)
Definition rate_step (w : world) : world :=
  let window := window_of w in
  let errors := count_errors window in
  let total := length window in
  if (total <? 20)%nat then w
  else if (error_threshold (self w) <? percent errors total)%float then
         gate error_rate (error_rate_alert (error_threshold (self w)) errors total)
           (add_log (ErrorRateWarning (HighErrorRate (percent errors total) total)) w)
       else w.

(** The world the [try] body leaves for a decoded object. *)
Definition line_step (fields : gmap string pyval) (w : world) : world :=
  rate_step
    (pool_step (pool_entry fields)
       (map_self (fun o => with_request_window
                             (Deque.append (request_window o)
                                (had_error_entry fields)) o) w)).

(** The exception a line raises out of the loop, if any: [AttributeError]
    from [log_entry.get] when the line decodes to something that is no dict,
    or what [json.loads] raised when that is not [JSONDecodeError]. *)
Definition escapes (line : loads) : option exn :=
  match line with
  | JSONDecodeError => None
  | Loaded (JObject _) => None
  | Loaded _ => Some AttributeError
  | LoadsRaised e => Some e
  end.

(** A line that [json.loads] decodes to a dict, or rejects with
    [JSONDecodeError]. *)
Definition accepted (line : loads) : bool :=
  match line with
  | JSONDecodeError => true
  | Loaded (JObject _) => true
  | Loaded _ => false
  | LoadsRaised _ => false
  end.

(** A line on which [json.loads] does not raise [JSONDecodeError]. *)
Definition decodable (line : loads) : bool :=
  match line with
  | JSONDecodeError => false
  | Loaded _ => true
  | LoadsRaised _ => true
  end.

Definition muted (w w' : world) : Prop :=
  maintenance_mode (self w) = true ->
  maintenance_mode (self w') = true
  /\ sink w' = sink w
  /\ last_failover_alert (self w') = last_failover_alert (self w)
  /\ last_error_rate_alert (self w') = last_error_rate_alert (self w).

Definition grows (w w' : world) : Prop :=
  settings (self w') = settings (self w)
  /\ clock w' = clock w
  /\ (ticks w <= ticks w')%nat
  /\ (exists new, sink w' = sink w ++ new
                  /\ (length new <= ticks w' - ticks w)%nat)
  /\ exists records, log w' = log w ++ records.

Definition count_kind (k : alert_type) (l : list alert) : nat :=
  length (List.filter (fun a => bool_decide (alert_kind a = k)) l).

(** Among the next [n] clock readings no two are a cooldown apart. *)
Definition within_cooldown (w : world) (n : nat) : Prop :=
  forall i j, (ticks w <= i < ticks w + n)%nat -> (ticks w <= j < ticks w + n)%nat ->
    (clock w j - clock w i < inject_Z (cooldown_sec (self w)))%Q.

Definition fired_at_most_once (w0 : world) (k : alert_type) (w : world) : Prop :=
  clock w = clock w0
  /\ (ticks w0 <= ticks w)%nat
  /\ cooldown_sec (self w) = cooldown_sec (self w0)
  /\ (count_kind k (sink w) = count_kind k (sink w0)
      \/ (count_kind k (sink w) = S (count_kind k (sink w0))
          /\ exists i, (ticks w0 <= i < ticks w)%nat
                       /\ last_fired k (self w) = clock w0 i)).

(** What an alert in the sink says, for a watcher with the given threshold
    and window size: a failover alert names two different non-empty pools; an
    error-rate alert reports the rate of [errors] among [total] requests,
    with [20 <= total <= window], and that rate is above the threshold. *)
Definition sound_alert (threshold : float) (window : nat) (a : alert) : Prop :=
  match alert_message a with
  | TrafficSwitched previous current =>
      a = failover_alert previous current
      /\ truthy previous = true /\ truthy current = true
      /\ Py.differs current previous = true
  | HighErrorRate r total =>
      exists errors,
        a = error_rate_alert threshold errors total
        /\ (20 <= total <= window)%nat /\ (errors <= total)%nat
        /\ (threshold <? percent errors total)%float = true
  end.

Definition sound_world (threshold : float) (window : nat) (w : world) : Prop :=
  error_threshold (self w) = threshold
  /\ Deque.maxlen (request_window (self w)) = window
  /\ (Deque.len (request_window (self w)) <= window)%nat
  /\ (last_pool (self w) = PNone \/ truthy (last_pool (self w)) = true)
  /\ Forall (sound_alert threshold window) (sink w).

(** The non-empty pool values of the lines [read_loop] processes, in order. *)
Fixpoint pools_seen (lines : list loads) : list pyval :=
  match lines with
  | [] => []
  | JSONDecodeError :: rest => pools_seen rest
  | Loaded (JObject fields) :: rest =>
      if truthy (pool_entry fields) then pool_entry fields :: pools_seen rest
      else pools_seen rest
  | Loaded _ :: _ => []
  | LoadsRaised _ :: _ => []
  end.

Definition error_free (threshold : float) (w : world) : Prop :=
  error_threshold (self w) = threshold
  /\ Forall (fun b : bool => b = false) (window_of w)
  /\ count_kind error_rate (sink w) = 0%nat.

(** [c.lower()] for a code point below 256: the letters A-Z and the Latin-1
    capitals 192-222, the sign 215 apart, move up by 32. *)
Definition lower_char (c : ascii) : ascii :=
  let n := nat_of_ascii c in
  if ((65 <=? n)%nat && (n <=? 90)%nat)
     || ((192 <=? n)%nat && (n <=? 222)%nat && negb (n =? 215)%nat)
  then ascii_of_nat (n + 32) else c.

(** [s.lower()] *)
Fixpoint lower (s : string) : string :=
  match s with
  | EmptyString => EmptyString
  | String c rest => String (lower_char c) (lower rest)
  end.

(** [os.getenv(name, default)], the variable's value given or absent. *)
Definition getenv (value : option string) (dflt : string) : string :=
  default dflt value.

(** Line 27: [os.getenv('MAINTENANCE_MODE', 'false').lower() == 'true']. *)
Definition maintenance_of_env (value : option string) : bool :=
  String.eqb (lower (getenv value "false")) "true".

(** * Properties *)

(** ** The alert gate: [send_slack_alert], lines 42-55 *)

Section Gate.

Variables (k : alert_type) (m : message) (d : list (string * detail)).

Let the_alert : alert :=
  {| alert_kind := k; alert_message := m; alert_details := d |}.

Lemma Qltb_lt (x y : Q) : Qltb x y = true <-> (x < y)%Q.
Proof.
  unfold Qltb. rewrite negb_true_iff. split.
  - intros H. apply Qnot_le_lt. intros Hle.
    apply Qle_bool_iff in Hle. congruence.
  - intros H. destruct (Qle_bool y x) eqn:E; [|reflexivity].
    apply Qle_bool_iff in E. lra.
Qed.

Lemma Qltb_ge (x y : Q) : Qltb x y = false <-> (y <= x)%Q.
Proof. unfold Qltb. rewrite negb_false_iff. apply Qle_bool_iff. Qed.

(** The three ways through the method. *)
Lemma send_slack_alert_maintenance w :
  maintenance_mode (self w) = true ->
  send_slack_alert k m d w = (Ok tt, add_log (MaintenanceSuppressed k) (tick w)).
Proof.
  intros H. unfold send_slack_alert, bind, time_time, get_self. cbn.
  rewrite H. reflexivity.
Qed.

Lemma send_slack_alert_cooldown w :
  maintenance_mode (self w) = false ->
  Qltb (next_reading w - last_fired k (self w))
       (inject_Z (cooldown_sec (self w))) = true ->
  send_slack_alert k m d w = (Ok tt, tick w).
Proof.
  intros H Hc. unfold send_slack_alert, bind, time_time, get_self. cbn.
  rewrite H. unfold next_reading in Hc.
  destruct k; cbn in Hc; rewrite Hc; reflexivity.
Qed.

Lemma send_slack_alert_fires w :
  maintenance_mode (self w) = false ->
  Qltb (next_reading w - last_fired k (self w))
       (inject_Z (cooldown_sec (self w))) = false ->
  send_slack_alert k m d w =
    (Ok tt, add_sink the_alert
              (map_self (record_firing k (next_reading w)) (tick w))).
Proof.
  intros H Hc. unfold send_slack_alert, bind, time_time, get_self. cbn.
  rewrite H. unfold next_reading in Hc.
  destruct k; cbn in Hc; rewrite Hc; reflexivity.
Qed.

(** The method as one case analysis on [should_fire]. *)
Lemma send_slack_alert_decides w :
  let w' := snd (send_slack_alert k m d w) in
  fst (send_slack_alert k m d w) = Ok tt
  /\ ticks w' = S (ticks w) /\ clock w' = clock w
  /\ if should_fire (self w) k (next_reading w)
     then sink w' = sink w ++ [the_alert]
          /\ self w' = record_firing k (next_reading w) (self w)
          /\ log w' = log w
     else sink w' = sink w /\ self w' = self w.
Proof.
  unfold should_fire.
  destruct (maintenance_mode (self w)) eqn:Hm; cbn [negb andb].
  - rewrite (send_slack_alert_maintenance w Hm). cbn. repeat split.
  - destruct (Qltb _ _) eqn:Hc; cbn [negb].
    + rewrite (send_slack_alert_cooldown w Hm Hc). cbn. repeat split.
    + rewrite (send_slack_alert_fires w Hm Hc). cbn. repeat split.
Qed.

End Gate.

Lemma last_fired_record_firing (k k' : alert_type) (now : Q) (o : LogWatcher) :
  last_fired k' (record_firing k now o)
  = if decide (k' = k) then now else last_fired k' o.
Proof. destruct k, k'; reflexivity. Qed.

(** C3.  The cooldown of the gate.  With [lastFiredAt[kind] = t0] (as a
    dispatch at [t0] records it) and the clock reading [now], a call of
    [send_slack_alert] sends nothing when [now < t0 + cooldown_sec] and sends
    the alert, recording [now], when [now >= t0 + cooldown_sec]; in
    maintenance mode it sends nothing whatever the cooldown state. *)
Theorem cooldown_gate (k : alert_type) (m : message) (d : list (string * detail))
    (w : world) (t0 now : Q) :
  last_fired k (self w) = t0 ->
  next_reading w = now ->
  let c := inject_Z (cooldown_sec (self w)) in
  let w' := snd (send_slack_alert k m d w) in
  let a := {| alert_kind := k; alert_message := m; alert_details := d |} in
  (maintenance_mode (self w) = true ->
     should_fire (self w) k now = false /\ sink w' = sink w)
  /\ (maintenance_mode (self w) = false -> (now < t0 + c)%Q ->
     should_fire (self w) k now = false /\ sink w' = sink w)
  /\ (maintenance_mode (self w) = false -> (t0 + c <= now)%Q ->
     should_fire (self w) k now = true /\ sink w' = sink w ++ [a]
     /\ last_fired k (self w') = now).
Proof.
  intros Ht Hn c w' a. subst t0 now. subst c w' a.
  pose proof (send_slack_alert_decides k m d w) as (_ & _ & _ & Hd).
  cbv zeta in Hd. unfold should_fire in *.
  split; [|split].
  - intros Hm. rewrite Hm in *. cbn [negb andb] in *.
    split; [reflexivity | apply Hd].
  - intros Hm Hlt.
    assert (Hc : Qltb (next_reading w - last_fired k (self w))
                      (inject_Z (cooldown_sec (self w))) = true)
      by (apply Qltb_lt; lra).
    rewrite Hm, Hc in *. cbn [negb andb] in *.
    split; [reflexivity | apply Hd].
  - intros Hm Hge.
    assert (Hc : Qltb (next_reading w - last_fired k (self w))
                      (inject_Z (cooldown_sec (self w))) = false)
      by (apply Qltb_ge; lra).
    rewrite Hm, Hc in *. cbn [negb andb] in *. destruct Hd as (Hs & Ho & _).
    split; [reflexivity | split; [exact Hs |]].
    rewrite Ho, last_fired_record_firing.
    destruct (decide (k = k)); congruence.
Qed.

(** A watcher that fired a failover alert at 1000 s, cooldown 300 s: a
    candidate at 1299 s is dropped, one at 1300 s goes out. *)
Lemma cooldown_gate_witness :
  let o := with_last_failover_alert 1000 (init 2 200 300 false) in
  let m := TrafficSwitched (PStr "blue") (PStr "green") in
  let d := failover_details (PStr "blue") (PStr "green") in
  sink (snd (send_slack_alert failover m d (boot o (fun _ => 1299%Q)))) = []
  /\ sink (snd (send_slack_alert failover m d (boot o (fun _ => 1300%Q))))
     = [ {| alert_kind := failover; alert_message := m; alert_details := d |} ].
Proof.
  intros o m d. split.
  - apply (proj1 (proj2 (cooldown_gate failover m d (boot o (fun _ => 1299%Q))
                           1000 1299 eq_refl eq_refl))); reflexivity.
  - apply (proj1 (proj2 (proj2 (proj2
             (cooldown_gate failover m d (boot o (fun _ => 1300%Q))
                1000 1300 eq_refl eq_refl)) eq_refl
             ltac:(vm_compute; discriminate)))).
Defined.

(** C6, as stated, fails.  The timestamps start at 0 and the cooldown test
    subtracts them like any other reading: with
    [ALERT_COOLDOWN_SEC=9999999999] and the clock at 1762000000 s, the very
    first failover alert of a fresh watcher, maintenance off, is dropped. *)
Lemma first_alert_dropped_under_long_cooldown :
  let w := boot (init 2 200 9999999999 false) (fun _ => 1762000000%Q) in
  let m := TrafficSwitched (PStr "blue") (PStr "green") in
  let d := failover_details (PStr "blue") (PStr "green") in
  last_fired failover (self w) = 0%Q
  /\ maintenance_mode (self w) = false
  /\ should_fire (self w) failover (next_reading w) = false
  /\ sink (snd (send_slack_alert failover m d w)) = [].
Proof. vm_compute. repeat split. Qed.

(** C6, amended.  While [lastFiredAt[kind]] is still the initial 0 and
    maintenance mode is off, the alert is dispatched exactly when the clock
    reading is at least [cooldown_sec]: always for a reading
    [now >= cooldown_sec], never for [now < cooldown_sec]. *)
Theorem first_alert_dispatched (k : alert_type) (m : message)
    (d : list (string * detail)) (w : world) :
  last_fired k (self w) = 0%Q ->
  maintenance_mode (self w) = false ->
  let now := next_reading w in
  let c := inject_Z (cooldown_sec (self w)) in
  let w' := snd (send_slack_alert k m d w) in
  let a := {| alert_kind := k; alert_message := m; alert_details := d |} in
  ((c <= now)%Q -> sink w' = sink w ++ [a] /\ last_fired k (self w') = now)
  /\ ((now < c)%Q -> sink w' = sink w /\ self w' = self w).
Proof.
  intros H0 Hm now c w' a. subst now c w' a.
  pose proof (send_slack_alert_decides k m d w) as (_ & _ & _ & Hd).
  cbv zeta in Hd. unfold should_fire in Hd. rewrite Hm, H0 in Hd.
  cbn [negb andb] in Hd. split.
  - intros Hge.
    assert (Hc : Qltb (next_reading w - 0) (inject_Z (cooldown_sec (self w))) = false)
      by (apply Qltb_ge; lra).
    rewrite Hc in Hd. cbn [negb] in Hd. destruct Hd as (Hs & Ho & _).
    split; [exact Hs |].
    rewrite Ho, last_fired_record_firing.
    destruct (decide (k = k)); congruence.
  - intros Hlt.
    assert (Hc : Qltb (next_reading w - 0) (inject_Z (cooldown_sec (self w))) = true)
      by (apply Qltb_lt; lra).
    rewrite Hc in Hd. cbn [negb] in Hd. exact Hd.
Qed.

(** A fresh watcher with the default cooldown of 300 s, the clock at
    1762000000 s: the first error-rate alert goes out. *)
Lemma first_alert_dispatched_witness :
  let w := boot (init 2 200 300 false) (fun _ => 1762000000%Q) in
  let m := HighErrorRate 5 20 in
  let d := error_rate_details 5 2 1 20 in
  sink (snd (send_slack_alert error_rate m d w))
  = [ {| alert_kind := error_rate; alert_message := m; alert_details := d |} ].
Proof.
  intros w m d.
  apply (proj1 (proj1 (first_alert_dispatched error_rate m d w eq_refl eq_refl)
                  ltac:(vm_compute; discriminate))).
Defined.

(** C9.  A call of [send_slack_alert] either dispatches (the alert is added
    to the sink and the caller's kind records the reading) or suppresses, which
    happens exactly in maintenance mode or inside the cooldown; a suppressed
    call sends nothing and leaves the whole object, both timestamps included,
    as it was.  So a timestamp of kind [k'] changes only in a call that
    dispatches an alert of that kind. *)
Theorem suppression_has_no_side_effect (k : alert_type) (m : message)
    (d : list (string * detail)) (w : world) :
  let now := next_reading w in
  let w' := snd (send_slack_alert k m d w) in
  let a := {| alert_kind := k; alert_message := m; alert_details := d |} in
  let suppressed :=
    maintenance_mode (self w)
    || Qltb (now - last_fired k (self w)) (inject_Z (cooldown_sec (self w))) in
  fst (send_slack_alert k m d w) = Ok tt
  /\ (if suppressed
      then sink w' = sink w /\ self w' = self w
      else sink w' = sink w ++ [a] /\ self w' = record_firing k now (self w))
  /\ forall k' : alert_type,
       last_fired k' (self w') = last_fired k' (self w)
       \/ (k' = k /\ suppressed = false /\ sink w' = sink w ++ [a]).
Proof.
  intros now w' a suppressed. subst now w' a suppressed.
  pose proof (send_slack_alert_decides k m d w) as (Hr & _ & _ & Hd).
  cbv zeta in Hd. unfold should_fire in Hd.
  split; [exact Hr |].
  destruct (maintenance_mode (self w)); cbn [negb andb orb] in *.
  - destruct Hd as (Hs & Ho). split; [split; assumption |].
    intros k'. left. rewrite Ho. reflexivity.
  - destruct (Qltb _ _); cbn [negb] in Hd.
    + destruct Hd as (Hs & Ho). split; [split; assumption |].
      intros k'. left. rewrite Ho. reflexivity.
    + destruct Hd as (Hs & Ho & _). split; [split; assumption |].
      intros k'. rewrite Ho, last_fired_record_firing.
      destruct (decide (k' = k)); [right | left]; auto.
Qed.

(** ** The rolling window: [deque(maxlen=window_size)] *)

Section Window.

Import Deque.

Lemma append_maxlen d x : maxlen (append d x) = maxlen d.
Proof. reflexivity. Qed.

Lemma append_below d x :
  (len d < maxlen d)%nat -> items (append d x) = items d ++ [x].
Proof.
  unfold append, len. cbn [items maxlen]. intros H.
  destruct (Nat.ltb_spec (maxlen d) (length (items d ++ [x]))) as [Hl | Hl];
    [| reflexivity].
  rewrite length_app in Hl. cbn in Hl. lia.
Qed.

Lemma append_full d x :
  (maxlen d <= len d)%nat -> items (append d x) = tl (items d ++ [x]).
Proof.
  unfold append, len. cbn [items maxlen]. intros H.
  destruct (Nat.ltb_spec (maxlen d) (length (items d ++ [x]))) as [Hl | Hl];
    [reflexivity |].
  rewrite length_app in Hl. cbn in Hl. lia.
Qed.

Lemma append_bounded d x :
  (len d <= maxlen d)%nat -> (len (append d x) <= maxlen (append d x))%nat.
Proof.
  intros H. rewrite append_maxlen. unfold len.
  destruct (Nat.lt_ge_cases (len d) (maxlen d)) as [Hlt | Hge].
  - rewrite append_below by exact Hlt. rewrite length_app. cbn.
    unfold len in Hlt. lia.
  - rewrite append_full by exact Hge.
    unfold len in *. destruct (items d) as [|y l]; cbn in *.
    + lia.
    + rewrite length_app. cbn. lia.
Qed.

Lemma tl_skipn {A} (n : nat) (l : list A) : tl (skipn n l) = skipn (S n) l.
Proof.
  revert l. induction n as [|n IH]; intros [|y l]; try reflexivity.
  - cbn [skipn]. rewrite IH. destruct l; reflexivity.
Qed.

Lemma pushes_snoc n xs x : pushes n (xs ++ [x]) = append (pushes n xs) x.
Proof. unfold pushes. rewrite fold_left_app. reflexivity. Qed.

Lemma pushes_maxlen n xs : maxlen (pushes n xs) = n.
Proof.
  induction xs as [|x xs IH] using rev_ind; [reflexivity |].
  rewrite pushes_snoc, append_maxlen. exact IH.
Qed.

(** The deque holds the last [n] values pushed, in the order pushed. *)
Lemma pushes_items n xs : items (pushes n xs) = skipn (length xs - n) xs.
Proof.
  induction xs as [|x xs IH] using rev_ind; [reflexivity |].
  rewrite pushes_snoc.
  destruct (Nat.lt_ge_cases (length xs) n) as [Hlt | Hge].
  - rewrite append_below.
    + rewrite IH, length_app. cbn.
      replace (length xs - n)%nat with 0%nat by lia.
      replace (length xs + 1 - n)%nat with 0%nat by lia. reflexivity.
    + unfold len. rewrite IH, pushes_maxlen, length_skipn. lia.
  - rewrite append_full.
    + rewrite IH, length_app. cbn.
      replace (length xs + 1 - n)%nat with (S (length xs - n)) by lia.
      rewrite <- tl_skipn. rewrite skipn_app.
      replace (length xs - n - length xs)%nat with 0%nat by lia. reflexivity.
    + unfold len. rewrite IH, pushes_maxlen, length_skipn. lia.
Qed.

End Window.

(** ** The methods, run *)

Ltac run :=
  unfold bind, ret, lift, raise, get_self, modify_self, logger, dispatch;
  cbn [fst snd self log sink clock ticks map_self add_log add_sink tick].

Lemma send_slack_alert_ok k m d w :
  send_slack_alert k m d w = (Ok tt, snd (send_slack_alert k m d w)).
Proof.
  pose proof (send_slack_alert_decides k m d w) as (Hr & _).
  destruct (send_slack_alert k m d w) as [r w']. cbn in *. congruence.
Qed.

(** [send_slack_alert] assigns nothing but the timestamp of its kind. *)
Lemma send_slack_alert_frame k m d w :
  let w' := snd (send_slack_alert k m d w) in
  settings (self w') = settings (self w)
  /\ request_window (self w') = request_window (self w)
  /\ last_pool (self w') = last_pool (self w)
  /\ clock w' = clock w.
Proof.
  pose proof (send_slack_alert_decides k m d w) as (_ & _ & Hc & Hd).
  cbv zeta in *. destruct (should_fire _ _ _).
  - destruct Hd as (_ & -> & _). destruct k; repeat split; assumption.
  - destruct Hd as (_ & ->). repeat split; assumption.
Qed.

Lemma check_failover_initial pool w :
  last_pool (self w) = PNone ->
  check_failover pool w
  = (Ok tt, add_log (InitialPoolDetected pool) (map_self (with_last_pool pool) w)).
Proof. intros H. unfold check_failover. run. rewrite H. reflexivity. Qed.

Lemma check_failover_switch pool w :
  last_pool (self w) <> PNone ->
  truthy pool && Py.differs pool (last_pool (self w)) = true ->
  let msg := TrafficSwitched (last_pool (self w)) pool in
  check_failover pool w
  = (Ok tt,
     map_self (with_last_pool pool)
       (snd (send_slack_alert failover msg
               (failover_details (last_pool (self w)) pool)
               (add_log (FailoverWarning msg) w)))).
Proof.
  intros Hn Hc msg. subst msg. unfold check_failover. run.
  destruct (last_pool (self w)) eqn:E; [congruence | | |];
    rewrite Hc; rewrite send_slack_alert_ok; reflexivity.
Qed.

Lemma check_failover_same pool w :
  last_pool (self w) <> PNone ->
  truthy pool && Py.differs pool (last_pool (self w)) = false ->
  check_failover pool w = (Ok tt, w).
Proof.
  intros Hn Hc. unfold check_failover. run.
  destruct (last_pool (self w)) eqn:E; [congruence | | |];
    rewrite Hc; reflexivity.
Qed.

Lemma rate_nonempty window :
  window <> [] -> rate window = Ok (percent (count_errors window) (length window)).
Proof.
  intros H. unfold rate, truediv, percent.
  destruct window; [congruence | reflexivity].
Qed.

Lemma check_error_rate_run w :
  let window := window_of w in
  let r := percent (count_errors window) (length window) in
  let msg := HighErrorRate r (length window) in
  check_error_rate w
  = if (length window <? 20)%nat then (Ok tt, w)
    else if (error_threshold (self w) <? r)%float then
           send_slack_alert error_rate msg
             (error_rate_details r (error_threshold (self w))
                (count_errors window) (length window))
             (add_log (ErrorRateWarning msg) w)
         else (Ok tt, w).
Proof.
  cbv zeta. unfold check_error_rate, window_of. run.
  destruct (Nat.ltb_spec (length (Deque.items (request_window (self w)))) 20)
    as [Hl | Hl]; [reflexivity |].
  rewrite rate_nonempty by (intros E; rewrite E in Hl; cbn in Hl; lia).
  destruct (_ <? _)%float; reflexivity.
Qed.

Lemma send_slack_alert_keeps_window k m d : keeps_window (send_slack_alert k m d).
Proof.
  intros w. pose proof (send_slack_alert_frame k m d w) as (Hs & Hw & _ & Hc).
  rewrite send_slack_alert_ok. cbn [fst snd]. auto.
Qed.

Lemma is_none_or_not (v : pyval) : v = PNone \/ v <> PNone.
Proof. destruct v; [left | right ..]; congruence. Qed.

Lemma check_failover_keeps_window pool : keeps_window (check_failover pool).
Proof.
  intros w. destruct (is_none_or_not (last_pool (self w))) as [E | E].
  - rewrite check_failover_initial by exact E. cbn. auto.
  - destruct (truthy pool && Py.differs pool (last_pool (self w))) eqn:Hc.
    + rewrite check_failover_switch by assumption.
      destruct (send_slack_alert_keeps_window failover
                  (TrafficSwitched (last_pool (self w)) pool)
                  (failover_details (last_pool (self w)) pool)
                  (add_log (FailoverWarning
                              (TrafficSwitched (last_pool (self w)) pool)) w))
        as (_ & Hs & Hw & Hk).
      cbn [fst snd map_self self clock]. cbn in Hs, Hw, Hk.
      unfold settings in *. cbn. auto.
    + rewrite check_failover_same by assumption. cbn. auto.
Qed.

Lemma observe_pool_keeps_window pool : keeps_window (observe_pool pool).
Proof.
  unfold observe_pool. destruct (truthy pool).
  - apply check_failover_keeps_window.
  - intros w. cbn. auto.
Qed.

Lemma check_error_rate_keeps_window : keeps_window check_error_rate.
Proof.
  intros w. rewrite check_error_rate_run. cbv zeta.
  destruct (_ <? _)%nat; [cbn; auto |].
  destruct (_ <? _)%float; [| cbn; auto].
  match goal with
  | |- context [send_slack_alert ?k ?m ?d ?w0] =>
      destruct (send_slack_alert_keeps_window k m d w0) as (Hr & Hs & Hw & Hk)
  end.
  cbn in Hs, Hw, Hk. auto.
Qed.

(** One line read: what happens to the window. *)
Lemma process_line_object fields w :
  process_line (Loaded (JObject fields)) w
  = (observe_pool (pool_entry fields) ;;; check_error_rate)
      (map_self (fun o => with_request_window
                            (Deque.append (request_window o)
                               (had_error_entry fields)) o) w).
Proof. reflexivity. Qed.

Lemma process_line_window line w :
  let w' := snd (process_line line w) in
  settings (self w') = settings (self w)
  /\ clock w' = clock w
  /\ match line with
     | Loaded (JObject fields) =>
         fst (process_line line w) = Ok tt
         /\ request_window (self w')
            = Deque.append (request_window (self w)) (had_error_entry fields)
     | JSONDecodeError => fst (process_line line w) = Ok tt /\ w' = w
     | Loaded _ => fst (process_line line w) = Raise AttributeError /\ w' = w
     | LoadsRaised e => fst (process_line line w) = Raise e /\ w' = w
     end.
Proof.
  destruct line as [| [fields | elements | v] | e];
    [cbn; auto | | cbn; auto ..].
  cbv zeta. rewrite process_line_object. unfold bind.
  set (w1 := map_self _ w).
  destruct (observe_pool_keeps_window (pool_entry fields) w1) as (Hr & Hs & Hw & Hk).
  destruct (observe_pool (pool_entry fields) w1) as [r w2]. cbn in Hr, Hs, Hw, Hk.
  subst r.
  destruct (check_error_rate_keeps_window w2) as (Hr' & Hs' & Hw' & Hk').
  destruct (check_error_rate w2) as [r w3]. cbn in *.
  rewrite Hs', Hs, Hk', Hk, Hw', Hw. auto.
Qed.

Lemma read_loop_window lines : forall w,
  let w' := snd (read_loop lines w) in
  settings (self w') = settings (self w)
  /\ request_window (self w')
     = fold_left Deque.append (pushed lines) (request_window (self w)).
Proof.
  induction lines as [| line rest IH]; intros w; [cbn; auto |].
  cbv zeta. cbn [read_loop]. unfold bind.
  pose proof (process_line_window line w) as (Hs & _ & Hl). cbv zeta in Hs, Hl.
  destruct (process_line line w) as [r w1]. cbn [fst snd] in *.
  destruct line as [| [fields | elements | v] | e]; destruct Hl as (-> & Hw).
  - subst w1. apply IH.
  - destruct (IH w1) as (Hs' & Hw'). cbn [pushed fold_left].
    rewrite <- Hw, <- Hs. auto.
  - subst w1. cbn. auto.
  - subst w1. cbn. auto.
  - subst w1. cbn. auto.
Qed.

Lemma tail_log_self lines w :
  self (snd (tail_log lines w)) = self (snd (read_loop lines w)).
Proof.
  unfold tail_log, log_and_reraise.
  destruct (read_loop lines w) as [[[] | e] w']; reflexivity.
Qed.

(** C4.  The window never holds more than [window_size] values: whatever
    lines are read, a watcher started by [__init__] holds exactly the last
    [window_size] values pushed, in the order pushed.  A push on a full deque
    whose oldest value is [oldest] and whose other values are [rest] leaves
    [rest] in order followed by the new value: the oldest one is evicted and
    no other. *)
Theorem rolling_window_fifo (threshold : float) (n : nat) (cooldown : Z)
    (maintenance : bool) (clk : nat -> Q) (lines : list loads)
    (d : Deque.deque) (oldest : bool) (rest : list bool) (x : bool) :
  Deque.items d = oldest :: rest ->
  Deque.len d = Deque.maxlen d ->
  let w' := snd (tail_log lines (boot (init threshold n cooldown maintenance) clk)) in
  window_size (self w') = n
  /\ (length (window_of w') <= n)%nat
  /\ window_of w' = skipn (length (pushed lines) - n) (pushed lines)
  /\ Deque.items (Deque.append d x) = rest ++ [x]
  /\ Deque.len (Deque.append d x) = Deque.maxlen d.
Proof.
  intros Hd Hfull w'. subst w'. unfold window_of.
  rewrite tail_log_self.
  destruct (read_loop_window lines (boot (init threshold n cooldown maintenance) clk))
    as (Hs & Hw).
  cbv zeta in Hs, Hw. rewrite Hw. cbn [boot self init request_window].
  fold (Deque.pushes n (pushed lines)). rewrite pushes_items.
  assert (Hitems : Deque.items (Deque.append d x) = rest ++ [x]).
  { rewrite append_full by lia. rewrite Hd. reflexivity. }
  repeat split.
  - unfold settings in Hs. cbn in Hs. congruence.
  - rewrite length_skipn. lia.
  - exact Hitems.
  - unfold Deque.len in *. rewrite Hitems, <- Hfull, Hd, length_app. cbn. lia.
Qed.

(** A window of three, full with [true; false; false]; and a watcher with
    [WINDOW_SIZE=2] that reads four lines, one of them not JSON. *)
Lemma rolling_window_fifo_witness :
  let d := {| Deque.maxlen := 3; Deque.items := [true; false; false] |} in
  let entry := fun st : string =>
    Loaded (JObject (<["upstream_status" := PStr st]> ∅)) in
  let lines := [entry "502"; JSONDecodeError; entry "200"; entry "500, 200"] in
  let w' := snd (tail_log lines (boot (init 2 2 300 false) (fun _ => 0%Q))) in
  Deque.items (Deque.append d true) = [false; false; true]
  /\ window_of w' = [false; true].
Proof.
  intros d entry lines w'.
  pose proof (rolling_window_fifo 2 2 300 false (fun _ => 0%Q) lines d
                true [false; false] true eq_refl eq_refl) as H.
  cbv zeta in H. destruct H as (_ & _ & Hw & Hi & _).
  split; [exact Hi | exact Hw].
Defined.

(** ** Pool tracking: [check_failover] behind its guard *)

(** C2.  Lines 173-174 with [check_failover] realise the spec's
    [PoolTracker.observe]: on [Initial] the tracked pool is set and the only
    effect besides is the info record (no call of [send_slack_alert]); on
    [NoChange], which covers an equal pool and an empty or absent one, the
    world is left as it was; on [Transition old new] the warning is logged,
    [send_slack_alert] is called exactly once, with the failover alert whose
    details carry [old] and [new], and the tracked pool becomes [new]. *)
Theorem pool_tracking (pool : pyval) (w : world) :
  let tracked := last_pool (self w) in
  let w' := snd (observe_pool pool w) in
  fst (observe_pool pool w) = Ok tt
  /\ last_pool (self w') = snd (Spec.observe tracked pool)
  /\ match fst (Spec.observe tracked pool) with
     | Spec.Initial p =>
         p = pool
         /\ w' = add_log (InitialPoolDetected p) (map_self (with_last_pool p) w)
     | Spec.NoChange => w' = w
     | Spec.Transition old new =>
         old = tracked /\ new = pool
         /\ w' = map_self (with_last_pool new)
                   (snd (send_slack_alert failover (TrafficSwitched old new)
                           [ ("Previous Pool", DValue old);
                             ("Current Pool", DValue new);
                             ("Recommended Action",
                              DText "Verify that the new pool is stable and responding correctly.") ]
                           (add_log (FailoverWarning (TrafficSwitched old new)) w)))
     end.
Proof.
  cbv zeta. unfold observe_pool, Spec.observe.
  destruct (truthy pool) eqn:Ht; cbn [negb]; [| cbn; auto].
  destruct (is_none_or_not (last_pool (self w))) as [E | E].
  - rewrite check_failover_initial by exact E. rewrite E. cbn. auto.
  - assert (Hm : forall (A : Type) (a b : A),
               match last_pool (self w) with PNone => a | _ => b end = b)
      by (intros; destruct (last_pool (self w)); congruence).
    rewrite Hm.
    destruct (Py.equals pool (last_pool (self w))) eqn:Heq.
    + rewrite check_failover_same; [cbn; auto | exact E |].
      unfold Py.differs. rewrite Heq, Ht. reflexivity.
    + rewrite check_failover_switch; [cbn; auto | exact E |].
      unfold Py.differs. rewrite Heq, Ht. reflexivity.
Qed.

(** The spec's run: blue, blue, green, then a line without a pool.  The first
    line only sets the tracker; the third sends the one failover alert. *)
Example pool_tracking_blue_green :
  let line := fun pool : string =>
    object_line (<["pool" := PStr pool]> (<["upstream_status" := PStr "200"]> ∅)) in
  let lines := [line "blue"; line "blue"; line "green"; object_line ∅] in
  let w0 := boot (init 2 200 300 false) (fun _ => 1762000000%Q) in
  sink (snd (tail_log (firstn 2 lines) w0)) = []
  /\ last_pool (self (snd (tail_log (firstn 2 lines) w0))) = PStr "blue"
  /\ sink (snd (tail_log lines w0))
     = [ {| alert_kind := failover;
            alert_message := TrafficSwitched (PStr "blue") (PStr "green");
            alert_details := failover_details (PStr "blue") (PStr "green") |} ]
  /\ last_pool (self (snd (tail_log lines w0))) = PStr "green".
Proof. vm_compute. repeat split. Qed.

(** ** The status parser: lines 164-169 *)

Section Strings.

Lemma append_cons (c : ascii) (s t : string) :
  (String c s ++ t)%string = String c (s ++ t)%string.
Proof. reflexivity. Qed.

Lemma append_empty_r (s : string) : (s ++ "")%string = s.
Proof.
  induction s as [| c s IH]; [reflexivity |].
  rewrite append_cons, IH. reflexivity.
Qed.

Lemma append_snoc (tok : string) (c : ascii) (s : string) :
  ((tok ++ String c "") ++ s)%string = (tok ++ String c s)%string.
Proof.
  induction tok as [| c' tok IH]; [reflexivity |].
  rewrite !append_cons, IH. reflexivity.
Qed.

(** Without an occurrence of the separator the string is one token. *)
Lemma split_from_without_sep (sep : string) : forall s tok,
  contains sep s = false -> split_from sep 0 tok s = [(tok ++ s)%string].
Proof.
  induction s as [| c s IH]; intros tok H.
  - cbn [split_from]. rewrite append_empty_r. reflexivity.
  - cbn [contains] in H. apply orb_false_iff in H as [Hp Hc].
    cbn [split_from]. rewrite Hp, IH by exact Hc.
    rewrite append_snoc. reflexivity.
Qed.

Lemma split_without_sep (sep s : string) :
  contains sep s = false -> split sep s = [s].
Proof. intros H. unfold split. rewrite split_from_without_sep by exact H. reflexivity. Qed.

Lemma prefix_iff (a : string) : forall s,
  String.prefix a s = true <-> exists post, s = (a ++ post)%string.
Proof.
  induction a as [| c a IH]; intros s.
  - split; [intros _; exists s; reflexivity | intros _; destruct s; reflexivity].
  - destruct s as [| c' s]; cbn [String.prefix].
    + split; [discriminate | intros (post & E); discriminate].
    + destruct (ascii_dec c c') as [<- | Hn].
      * rewrite IH. split; intros (post & E); exists post.
        -- rewrite append_cons, E. reflexivity.
        -- rewrite append_cons in E. congruence.
      * split; [discriminate |]. intros (post & E).
        rewrite append_cons in E. congruence.
Qed.

(** The boolean [contains] is [sep in s]. *)
Lemma contains_iff (sep : string) : forall s,
  contains sep s = true <-> occurs sep s.
Proof.
  unfold occurs. induction s as [| c s IH]; cbn [contains];
    rewrite orb_true_iff, prefix_iff.
  - split.
    + intros [(post & E) | H]; [| discriminate]. exists "", post. exact E.
    + intros (pre & post & E). left.
      destruct pre; [exists post; exact E | discriminate].
  - rewrite IH. split.
    + intros [(post & E) | (pre & post & E)].
      * exists "", post. exact E.
      * exists (String c pre), post. rewrite append_cons, E. reflexivity.
    + intros (pre & post & E). destruct pre as [| c' pre].
      * left. exists post. exact E.
      * right. rewrite append_cons in E. injection E as _ E.
        exists pre, post. exact E.
Qed.

Lemma split_from_skip (sep pre : string) : forall tok s,
  split_from sep (String.length pre) tok (pre ++ s)%string
  = split_from sep 0 tok s.
Proof.
  induction pre as [| c pre IH]; intros tok s; [reflexivity |].
  rewrite append_cons. cbn [String.length split_from]. apply IH.
Qed.

Lemma split_from_not_nil sep k tok s : split_from sep k tok s <> [].
Proof.
  revert k tok. induction s as [| c s IH]; intros k tok; cbn [split_from].
  - discriminate.
  - destruct k; [destruct (String.prefix sep _) |]; try discriminate; apply IH.
Qed.

Lemma join_cons sep x l :
  l <> [] -> join sep (x :: l) = (x ++ sep ++ join sep l)%string.
Proof. destruct l; [congruence | reflexivity]. Qed.

Lemma length_append_s (a b : string) :
  String.length (a ++ b)%string = (String.length a + String.length b)%nat.
Proof.
  induction a as [| x a IH]; [reflexivity |].
  rewrite append_cons. cbn [String.length]. rewrite IH. reflexivity.
Qed.

(** Joining the tokens with the separator gives the string back. *)
Lemma join_split_from (sep : string) :
  sep <> "" ->
  forall n s tok, (String.length s <= n)%nat ->
    join sep (split_from sep 0 tok s) = (tok ++ s)%string.
Proof.
  intros Hsep. induction n as [| n IH]; intros s tok Hn.
  - destruct s; [| cbn in Hn; lia]. cbn. rewrite append_empty_r. reflexivity.
  - destruct s as [| c s]; [cbn; rewrite append_empty_r; reflexivity |].
    cbn [String.length] in Hn. cbn [split_from].
    destruct (String.prefix sep (String c s)) eqn:Hp.
    + apply prefix_iff in Hp as (post & E).
      destruct sep as [| c0 sep']; [congruence |].
      rewrite append_cons in E. injection E as <- ->.
      replace (String.length (String c sep') - 1)%nat
        with (String.length sep') by (cbn [String.length]; lia).
      rewrite split_from_skip.
      rewrite join_cons by apply split_from_not_nil.
      rewrite IH.
      * rewrite append_cons. reflexivity.
      * rewrite length_append_s in Hn. lia.
    + rewrite IH by lia. apply append_snoc.
Qed.

Lemma join_split (sep s : string) : sep <> "" -> join sep (split sep s) = s.
Proof.
  intros H. unfold split.
  rewrite (join_split_from sep H (String.length s)) by lia. reflexivity.
Qed.

Lemma rstrip_cons_not_empty (c : ascii) (s : string) :
  isspace c = false -> rstrip (String c s) <> "".
Proof.
  intros Hc. cbn [rstrip]. destruct (rstrip s); [rewrite Hc |]; discriminate.
Qed.

(** A token that starts with ['5'] is not blank, so the [if s.strip()]
    filter never hides one. *)
Lemma startswith_5_not_blank (s : string) :
  startswith "5" s = true -> strip s <> "".
Proof.
  unfold startswith. destruct s as [| c s]; [discriminate |].
  cbn [String.prefix]. destruct (ascii_dec "5" c) as [<- | Hn]; [| discriminate].
  intros _. unfold strip. cbn [lstrip].
  change (isspace "5") with false. cbv iota.
  apply rstrip_cons_not_empty. reflexivity.
Qed.

Lemma truthy_PStr (s : string) : truthy (PStr s) = true <-> s <> "".
Proof.
  cbn. rewrite negb_true_iff. apply String.eqb_neq.
Qed.

(** The rule of lines 167-169 on the tokens. *)
Lemma had_error_of_iff (v : pyval) :
  had_error_of v = true
  <-> truthy v = true
      /\ exists tok, In tok (split ", " (Py.str v))
                     /\ strip tok <> "" /\ startswith "5" tok = true.
Proof.
  unfold had_error_of. destruct (truthy v); [| intuition discriminate].
  cbv zeta. rewrite existsb_exists. split.
  - intros (tok & Hin & H5). apply filter_In in Hin as (Hin & Hb).
    apply truthy_PStr in Hb. eauto.
  - intros (_ & tok & Hin & Hb & H5). exists tok. split; [| exact H5].
    apply filter_In. split; [exact Hin |]. apply truthy_PStr. exact Hb.
Qed.

(** A falsy value has no token that starts with ['5']. *)
Lemma falsy_no_5 (v : pyval) (tok : string) :
  truthy v = false -> In tok (split ", " (Py.str v)) -> startswith "5" tok = false.
Proof.
  destruct v as [| [|] | z | s]; cbn [truthy]; intros Hf Hin; try discriminate.
  - destruct Hin as [<- | []]. reflexivity.
  - destruct Hin as [<- | []]. reflexivity.
  - apply negb_false_iff, Z.eqb_eq in Hf. subst z.
    destruct Hin as [<- | []]. reflexivity.
  - apply negb_false_iff, String.eqb_eq in Hf. subst s.
    destruct Hin as [<- | []]. reflexivity.
Qed.

(** The separator between two strings separates their tokens: those of the
    first string are followed by those of the second. *)
Lemma split_from_app_sep (b : string) : forall (a : string) (skip : nat) (tok : string),
  (skip <= String.length a)%nat ->
  split_from ", " skip tok (a ++ ", " ++ b)%string
  = split_from ", " skip tok a ++ split ", " b.
Proof.
  induction a as [| c a IH]; intros skip tok Hskip.
  - cbn [String.length] in Hskip. replace skip with 0%nat by lia.
    change ("" ++ ", " ++ b)%string with (String "," (String " " b)).
    assert (H : String.prefix ", " (String "," (String " " b)) = true)
      by (apply prefix_iff; exists b; reflexivity).
    cbn [split_from]. rewrite H. reflexivity.
  - rewrite append_cons. destruct skip as [| k].
    + assert (Hpre : String.prefix ", " (String c (a ++ ", " ++ b)%string)
                     = String.prefix ", " (String c a)).
      { cbn [String.prefix]. destruct (ascii_dec "," c); [| reflexivity].
        destruct a as [| c2 a]; [reflexivity |].
        rewrite append_cons. cbn [String.prefix].
        destruct (ascii_dec " " c2); [| reflexivity].
        destruct a; reflexivity. }
      cbn [split_from]. rewrite Hpre.
      destruct (String.prefix ", " (String c a)) eqn:Hp.
      * cbn [app]. f_equal. apply IH.
        cbn [String.prefix] in Hp. destruct (ascii_dec "," c); [| discriminate].
        destruct a; [discriminate | cbn; lia].
      * apply IH. lia.
    + cbn [split_from]. apply IH. cbn [String.length] in Hskip. lia.
Qed.

Lemma split_app_sep (a b : string) :
  split ", " (a ++ ", " ++ b)%string = split ", " a ++ split ", " b.
Proof. apply split_from_app_sep. lia. Qed.

Lemma had_error_of_app_sep (a b : string) :
  had_error_of (PStr (a ++ ", " ++ b))
  = had_error_of (PStr a) || had_error_of (PStr b).
Proof.
  apply eq_true_iff_eq. rewrite orb_true_iff, !had_error_of_iff.
  cbn [Py.str]. rewrite split_app_sep. split.
  - intros (_ & tok & Hin & Hb & H5).
    apply in_app_or in Hin as [Hin | Hin]; [left | right].
    + split; [| eauto]. destruct (truthy (PStr a)) eqn:Ht; [reflexivity |].
      rewrite (falsy_no_5 (PStr a) tok Ht Hin) in H5. discriminate.
    + split; [| eauto]. destruct (truthy (PStr b)) eqn:Ht; [reflexivity |].
      rewrite (falsy_no_5 (PStr b) tok Ht Hin) in H5. discriminate.
  - assert (Ht : truthy (PStr (a ++ ", " ++ b)) = true).
    { apply truthy_PStr. destruct a; discriminate. }
    intros [(_ & tok & Hin & Hb & H5) | (_ & tok & Hin & Hb & H5)];
      (split; [exact Ht |]); exists tok;
      (split; [apply in_or_app; auto | auto]).
Qed.

End Strings.

(** C8.  For a decoded object, the value pushed on the window is
    [had_error]: false when [upstream_status] is absent; when it is present
    with value [v], true exactly when [str(v)], split on [", "], has a token
    that is not blank and starts with ['5'].  The tokens are the pieces
    between the separators: the tokens of [a ++ ", " ++ b] are those of [a]
    followed by those of [b], and a string in which the separator does not
    occur is its one token; so a status has an error exactly when the part
    before a separator or the part after it has one, at whatever position the
    5xx code stands.  ["200"] gives false and ["502, 200"] gives true, as do
    ["200, 502"] and ["200, 404, 503"]; ["200, 404"] gives false. *)
Theorem had_error_rule (fields : gmap string pyval) (w : world) :
  let w' := snd (process_line (Loaded (JObject fields)) w) in
  let hadError := had_error_entry fields in
  request_window (self w') = Deque.append (request_window (self w)) hadError
  /\ match fields !! "upstream_status" with
     | None => hadError = false
     | Some v =>
         hadError = true
         <-> exists tok, In tok (split ", " (Py.str v))
                         /\ strip tok <> "" /\ startswith "5" tok = true
     end
  /\ (forall a b : string,
        split ", " (a ++ ", " ++ b)%string = split ", " a ++ split ", " b
        /\ had_error_of (PStr (a ++ ", " ++ b))
           = had_error_of (PStr a) || had_error_of (PStr b))
  /\ (forall s : string, ~ occurs ", " s -> split ", " s = [s])
  /\ had_error_entry (<["pool" := PStr "blue"]> (<["upstream_status" := PStr "200"]> ∅))
     = false
  /\ had_error_entry (<["pool" := PStr "green"]> (<["upstream_status" := PStr "502, 200"]> ∅))
     = true
  /\ had_error_entry (<["pool" := PStr "green"]> (<["upstream_status" := PStr "200, 502"]> ∅))
     = true
  /\ had_error_entry (<["upstream_status" := PStr "200, 404, 503"]> ∅) = true
  /\ had_error_entry (<["upstream_status" := PStr "200, 404"]> ∅) = false
  /\ split ", " "200, 404, 503" = ["200"; "404"; "503"].
Proof.
  cbv zeta.
  split; [| split; [| split; [| split; [| repeat split; vm_compute; reflexivity]]]].
  4: { intros s Hs. apply split_without_sep.
       destruct (contains ", " s) eqn:E; [| reflexivity].
       exfalso. apply Hs, contains_iff. exact E. }
  3: { intros a b. split; [apply split_app_sep | apply had_error_of_app_sep]. }
  - pose proof (process_line_window (Loaded (JObject fields)) w) as (_ & _ & _ & H).
    exact H.
  - unfold had_error_entry.
    destruct (fields !! "upstream_status") as [v |]; cbn [default from_option id];
      [| reflexivity].
    rewrite had_error_of_iff. split; [intros (_ & H); exact H |].
    intros (tok & Hin & Hb & H5). split; [| eauto].
    destruct (truthy v) eqn:Ht; [reflexivity |].
    rewrite (falsy_no_5 v tok Ht Hin) in H5. discriminate.
Qed.

(** C10.  A status value without the two-character separator [", "] is one
    token, so [had_error] is whether the whole value starts with ['5']: a 5xx
    code after a comma alone, as in ["200,502"], is not seen. *)
Theorem comma_only_status_is_one_token (s : string) (fields : gmap string pyval) :
  contains ", " s = false ->
  fields !! "upstream_status" = Some (PStr s) ->
  split ", " s = [s]
  /\ had_error_of (PStr s) = startswith "5" s
  /\ had_error_entry fields = startswith "5" s.
Proof.
  intros Hc Hf.
  assert (Hs : split ", " s = [s]) by (apply split_without_sep; exact Hc).
  assert (Hh : had_error_of (PStr s) = startswith "5" s).
  { unfold had_error_of. cbn [Py.str]. rewrite Hs. cbv zeta. cbn [List.filter].
    destruct (startswith "5" s) eqn:H5.
    - pose proof (startswith_5_not_blank s H5) as Hb.
      apply truthy_PStr in Hb. rewrite Hb. cbn [existsb]. rewrite H5.
      destruct (truthy (PStr s)) eqn:Ht; [reflexivity |].
      cbn in Ht. apply negb_false_iff, String.eqb_eq in Ht. subst s. discriminate.
    - destruct (truthy (PStr s)); [| reflexivity].
      destruct (truthy (PStr (strip s))); cbn [existsb]; [rewrite H5 |]; reflexivity. }
  split; [exact Hs | split; [exact Hh |]].
  unfold had_error_entry. rewrite Hf. exact Hh.
Qed.

(** ["200,502"]: one token, no error seen, although the second code is 502. *)
Lemma comma_only_status_witness :
  split ", " "200,502" = ["200,502"]
  /\ had_error_entry (<["upstream_status" := PStr "200,502"]> ∅) = false.
Proof.
  pose proof (comma_only_status_is_one_token "200,502"
                (<["upstream_status" := PStr "200,502"]> ∅) eq_refl eq_refl)
    as (Hs & _ & He).
  split; [exact Hs | exact He].
Defined.

(** ** Lines that do not decode to an object *)

(** A line on which [json.loads] raises [JSONDecodeError] is skipped: the
    world is untouched and the loop goes on with the next line. *)
Lemma undecodable_line_skipped (rest : list loads) (w : world) :
  process_line JSONDecodeError w = (Ok tt, w)
  /\ read_loop (JSONDecodeError :: rest) w = read_loop rest w
  /\ tail_log (JSONDecodeError :: rest) w = tail_log rest w.
Proof. repeat split. Qed.

(** C7 fails on the code.  A line that is valid JSON but not an object (here
    a scalar such as [42], [null] or a quoted string; an array does the same)
    makes [log_entry.get] raise [AttributeError], which the [except
    json.JSONDecodeError] clause does not catch: [tail_log] logs the error and
    raises, nothing was pushed, and the lines after it are never processed. *)
Theorem non_object_line_aborts_loop (v : pyval) (elements : list pyval)
    (rest : list loads) (w : world) :
  tail_log (Loaded (JScalar v) :: rest) w
    = (Raise AttributeError, add_log (WatcherError AttributeError) w)
  /\ tail_log (Loaded (JArray elements) :: rest) w
    = (Raise AttributeError, add_log (WatcherError AttributeError) w).
Proof. split; reflexivity. Qed.

(** ** The error rate *)

Lemma count_errors_count_occ (window : list bool) :
  count_errors window = count_occ bool_dec window true.
Proof.
  unfold count_errors.
  induction window as [| [|] l IH]; simpl; [reflexivity | f_equal |]; exact IH.
Qed.

(** [check_error_rate] returns normally in every world: the division is
    reached only with 20 values or more. *)
Lemma check_error_rate_returns (w : world) : fst (check_error_rate w) = Ok tt.
Proof. apply check_error_rate_keeps_window. Qed.

(** C5, as stated, fails.  With 7 errors among 200 values the code computes
    [7 / 200] first, which is not exact in binary64, and the product with 100
    is 3.5000000000000004, that is [7/2 + 2^-51] (the mantissa below is
    [7 * 2^50 + 1]), while [100 * 7 / 200] is 3.5, in floats as in the
    rationals. *)
Lemma rate_of_7_in_200 :
  let window := repeat true 7 ++ repeat false 193 in
  count_occ bool_dec window true = 7%nat
  /\ length window = 200%nat
  /\ rate window = Ok 0x1.c000000000001p+1%float   (* 3.5000000000000004 *)
  /\ Prim2SF 0x1.c000000000001p+1 = S754_finite false 7881299347898369 (-51)
  /\ Spec.rate 7 200 = 3.5%float
  /\ Prim2SF 3.5 = S754_finite false 7881299347898368 (-51)
  /\ rate window <> Ok (Spec.rate 7 200).
Proof.
  cbv zeta. repeat split; try (vm_compute; reflexivity).
  intros H.
  apply (f_equal (fun r => match r with
                           | Ok x => (x =? 3.5)%float
                           | Raise _ => false
                           end)) in H.
  vm_compute in H. discriminate.
Qed.

(** C5, amended.  On a window of [n > 0] values of which [k] are true,
    [rate()] is the binary64 value of [(k / n) * 100], the quotient rounded
    before the product is; on the empty window it raises
    [ZeroDivisionError]; and [check_error_rate] never reaches it there: with
    fewer than 20 values it returns at once, and it returns normally in every
    world. *)
Theorem rate_is_rounded_quotient_times_100 (window : list bool) (k n : nat) :
  n = length window ->
  k = count_occ bool_dec window true ->
  (0 < n)%nat ->
  rate window = Ok (float_of_nat k / float_of_nat n * 100)%float
  /\ rate [] = Raise ZeroDivisionError
  /\ forall w : world,
       fst (check_error_rate w) = Ok tt
       /\ ((length (window_of w) < 20)%nat -> check_error_rate w = (Ok tt, w)).
Proof.
  intros -> -> Hn. split; [| split; [reflexivity |]].
  - rewrite rate_nonempty by (intros ->; cbn in Hn; lia).
    rewrite count_errors_count_occ. reflexivity.
  - intros w. split; [apply check_error_rate_returns |].
    intros Hl. rewrite check_error_rate_run. cbv zeta.
    apply Nat.ltb_lt in Hl. rewrite Hl. reflexivity.
Qed.

(** One error among twenty values: 5 percent, as a float exactly 5. *)
Lemma rate_is_rounded_quotient_times_100_witness :
  rate (repeat false 19 ++ [true]) = Ok 5%float.
Proof.
  apply (proj1 (rate_is_rounded_quotient_times_100
                  (repeat false 19 ++ [true]) 1 20 eq_refl eq_refl
                  ltac:(lia))).
Defined.

(** What the rounding changes for an operator: with
    [ERROR_RATE_THRESHOLD=3.5] and 7 errors among the 200 values of a full
    default window, the watcher alerts (3.5000000000000004 > 3.5) although
    [100 * 7 / 200 > 3.5] is false. *)
Example alert_at_exactly_the_threshold :
  let line := fun st : string =>
    object_line (<["upstream_status" := PStr st]> ∅) in
  let lines := repeat (line "200") 193 ++ repeat (line "502") 7 in
  let w' := snd (tail_log lines
                   (boot (init 3.5 200 300 false) (fun _ => 1762000000%Q))) in
  count_errors (window_of w') = 7%nat
  /\ length (window_of w') = 200%nat
  /\ (3.5 <? Spec.rate 7 200)%float = false
  /\ map alert_kind (sink w') = [error_rate]
  /\ map alert_message (sink w') = [HighErrorRate 0x1.c000000000001p+1 200].
Proof. vm_compute. repeat split. Qed.

(** ** The error-rate check along a run *)

Lemma append_len_le (d : Deque.deque) (x : bool) :
  (Deque.len (Deque.append d x) <= S (Deque.len d))%nat.
Proof.
  destruct (Nat.lt_ge_cases (Deque.len d) (Deque.maxlen d)) as [Hlt | Hge];
    unfold Deque.len.
  - rewrite append_below by exact Hlt. rewrite length_app. cbn. lia.
  - rewrite append_full by exact Hge.
    destruct (Deque.items d); cbn; [lia |]. rewrite length_app. cbn. lia.
Qed.

Lemma read_loop_app (l1 l2 : list loads) : forall w,
  read_loop (l1 ++ l2) w
  = match read_loop l1 w with
    | (Ok _, w') => read_loop l2 w'
    | (Raise e, w') => (Raise e, w')
    end.
Proof.
  induction l1 as [| line l1 IH]; intros w; [reflexivity |].
  cbn [app read_loop]. unfold bind.
  destruct (process_line line w) as [[[] | e] w1]; [apply IH | reflexivity].
Qed.

Lemma calm_refl p w :
  last_pool (self w) = PNone \/ last_pool (self w) = p -> calm p w w.
Proof. unfold calm. auto 10. Qed.

Lemma calm_trans p w1 w2 w3 : calm p w1 w2 -> calm p w2 w3 -> calm p w1 w3.
Proof.
  unfold calm. intros (-> & -> & -> & -> & -> & _) (-> & -> & -> & -> & -> & H).
  auto 10.
Qed.

(** A pool that is absent or [p], seen by a tracker that is unset or at [p]:
    no alert candidate, when [p != p] is false. *)
Lemma observe_pool_calm (p pool : pyval) (w : world) :
  Py.differs p p = false ->
  last_pool (self w) = PNone \/ last_pool (self w) = p ->
  truthy pool = false \/ pool = p ->
  exists w', observe_pool pool w = (Ok tt, w')
             /\ calm p w w'
             /\ request_window (self w') = request_window (self w).
Proof.
  intros Hself Hl Hp. unfold observe_pool.
  destruct (truthy pool) eqn:Ht.
  - destruct Hp as [Hp | ->]; [discriminate |].
    destruct (is_none_or_not (last_pool (self w))) as [E | E].
    + rewrite check_failover_initial by exact E. eexists. split; [reflexivity |].
      unfold calm. cbn. auto 10.
    + destruct Hl as [Hl | Hl]; [contradiction |].
      rewrite check_failover_same; [| exact E |].
      * eexists. split; [reflexivity |]. split; [apply calm_refl |]; auto.
      * rewrite Hl, Hself, Ht. reflexivity.
  - eexists. split; [reflexivity |]. split; [apply calm_refl |]; auto.
Qed.

(** While fewer than 20 values are held, such lines only fill the window. *)
Lemma quiet_prefix (p : pyval) (fs : list (gmap string pyval)) : forall w,
  Py.differs p p = false ->
  Forall (pool_is p) fs ->
  last_pool (self w) = PNone \/ last_pool (self w) = p ->
  (length (window_of w) + length fs < 20)%nat ->
  exists w', read_loop (map object_line fs) w = (Ok tt, w')
             /\ calm p w w'
             /\ request_window (self w')
                = fold_left Deque.append (map had_error_entry fs)
                    (request_window (self w)).
Proof.
  induction fs as [| f fs IH]; intros w Hself Hp Hl Hlen.
  - exists w. split; [reflexivity |]. split; [apply calm_refl; exact Hl | reflexivity].
  - apply Forall_cons_iff in Hp as [Hf Hfs]. cbn [length] in Hlen.
    cbn [map read_loop]. unfold bind, object_line.
    rewrite process_line_object. unfold bind.
    set (w1 := map_self _ w).
    destruct (observe_pool_calm p (pool_entry f) w1 Hself Hl Hf)
      as (w2 & -> & Hc & Hw).
    assert (Hw2 : (length (window_of w2) <= S (length (window_of w)))%nat).
    { unfold window_of. rewrite Hw. apply append_len_le. }
    rewrite check_error_rate_run. cbv zeta.
    destruct (Nat.ltb_spec (length (window_of w2)) 20) as [_ | Hge]; [| lia].
    destruct (IH w2) as (w' & Hrun & Hc' & Hw');
      [exact Hself | exact Hfs | apply Hc | lia |].
    exists w'. split; [exact Hrun |]. split.
    + eapply calm_trans; [| exact Hc'].
      destruct Hc as (? & ? & ? & ? & ? & ?). unfold calm. cbn in *. auto 10.
    + rewrite Hw', Hw. reflexivity.
Qed.

Lemma settings_with_request_window (d : Deque.deque) (o : LogWatcher) :
  settings (with_request_window d o) = settings o.
Proof. reflexivity. Qed.

(** A list of 20 is its first 19 elements and a last one. *)
Lemma twenty_split {A} (l : list A) :
  length l = 20%nat -> exists x, l = firstn 19 l ++ [x].
Proof.
  intros H. pose proof (firstn_skipn 19 l) as E.
  assert (Hs : length (skipn 19 l) = 1%nat) by (rewrite length_skipn; lia).
  destruct (skipn 19 l) as [| x [| y t]]; try discriminate.
  exists x. symmetry. exact E.
Qed.

(** Inside the cooldown of the error-rate alert the check sends nothing. *)
Lemma check_error_rate_in_cooldown (w : world) :
  maintenance_mode (self w) = false ->
  Qltb (next_reading w - last_error_rate_alert (self w))
       (inject_Z (cooldown_sec (self w))) = true ->
  sink (snd (check_error_rate w)) = sink w.
Proof.
  intros Hm Hc. rewrite check_error_rate_run. cbv zeta.
  destruct (_ <? _)%nat; [reflexivity |].
  destruct (_ <? _)%float; [| reflexivity].
  rewrite send_slack_alert_cooldown; [reflexivity | exact Hm | exact Hc].
Qed.

(** The 20th line of the scenario, and the world it leaves. *)
(** The 20th line of the scenario hands the candidate to [send_slack_alert],
    in a world where nothing was sent and the clock was never read. *)
Lemma twentieth_line_candidate (n : nat) (c : Z) (clk : nat -> Q) (p : pyval)
    (fs : list (gmap string pyval)) :
  (20 <= n)%nat ->
  length fs = 20%nat ->
  Py.differs p p = false ->
  Forall (pool_is p) fs ->
  count_errors (map had_error_entry fs) = 1%nat ->
  exists wc,
    read_loop (map object_line fs) (boot (init 2 n c false) clk)
    = send_slack_alert error_rate (HighErrorRate 5 20)
        (error_rate_details 5 2 1 20) wc
    /\ sink wc = []
    /\ ticks wc = 0%nat
    /\ clock wc = clk
    /\ settings (self wc) = (2%float, n, c, false)
    /\ last_error_rate_alert (self wc) = 0%Q
    /\ (last_pool (self wc) = PNone \/ last_pool (self wc) = p).
Proof.
  intros Hn Hlen Hself Hp Herr.
  destruct (twenty_split fs Hlen) as (f20 & Hfs).
  assert (Hlp : length (firstn 19 fs) = 19%nat) by (rewrite length_firstn; lia).
  assert (Hpp : Forall (pool_is p) (firstn 19 fs)) by (apply Forall_take; exact Hp).
  assert (Hp20 : pool_is p f20).
  { rewrite Hfs in Hp. apply Forall_app in Hp as (_ & Hl).
    inversion Hl; assumption. }
  remember (firstn 19 fs) as pre eqn:Ep. clear Ep.
  set (w0 := boot (init 2 n c false) clk).
  rewrite Hfs. rewrite map_app, read_loop_app.
  destruct (quiet_prefix p pre w0 Hself Hpp) as (w19 & -> & Hc19 & Hw19);
    [left; reflexivity | cbn; lia |].
  cbn [map read_loop]. unfold bind at 1. unfold object_line.
  rewrite process_line_object. unfold bind at 1.
  set (w19' := map_self _ w19).
  destruct Hc19 as (Hs19 & Ht19 & Hk19 & Hg19 & He19 & Hl19).
  destruct (observe_pool_calm p (pool_entry f20) w19' Hself Hl19 Hp20)
    as (w20 & -> & (Hs20 & Ht20 & Hk20 & Hg20 & He20 & Hl20) & Hw20).
  subst w19'.
  cbn [self sink ticks clock map_self with_request_window settings
       last_error_rate_alert request_window error_threshold window_size
       cooldown_sec maintenance_mode] in Hs20, Ht20, Hk20, Hg20, He20, Hw20.
  assert (Hwin : window_of w20 = map had_error_entry fs).
  { unfold window_of. rewrite Hw20, Hw19.
    change (fold_left Deque.append (map had_error_entry pre)
              (request_window (self w0)))
      with (Deque.pushes n (map had_error_entry pre)).
    rewrite <- pushes_snoc.
    change [had_error_entry f20] with (map had_error_entry [f20]).
    rewrite <- map_app, <- Hfs, pushes_items, length_map, Hlen.
    replace (20 - n)%nat with 0%nat by lia. reflexivity. }
  assert (Hset : settings (self w20) = (2%float, n, c, false))
    by (rewrite Hg20, settings_with_request_window, Hg19; reflexivity).
  pose proof Hset as Hset'. unfold settings in Hset'.
  injection Hset' as Hthr Hsize Hcd Hmm.
  rewrite check_error_rate_run. cbv zeta.
  rewrite Hwin, length_map, Hlen, Herr, Hthr.
  change (20 <? 20)%nat with false.
  change (percent 1 20) with 5%float.
  change (2 <? 5)%float with true. cbv iota.
  exists (add_log (ErrorRateWarning (HighErrorRate 5 20)) w20).
  split.
  { pose proof (send_slack_alert_ok error_rate (HighErrorRate 5 20)
                  (error_rate_details 5 2 1 20)
                  (add_log (ErrorRateWarning (HighErrorRate 5 20)) w20)) as Hok.
    destruct (send_slack_alert _ _ _ _) as [r w']. cbn [snd] in Hok.
    injection Hok as ->. reflexivity. }
  cbn [sink self add_log ticks clock].
  rewrite Hs20, Hs19, Ht20, Ht19, Hk20, Hk19, He20, He19.
  repeat split; try exact Hl20. exact Hset.
Qed.

(** With a first reading not below the cooldown, the candidate goes out. *)
Lemma twentieth_line_fires (n : nat) (c : Z) (clk : nat -> Q) (p : pyval)
    (fs : list (gmap string pyval)) :
  (20 <= n)%nat ->
  length fs = 20%nat ->
  Py.differs p p = false ->
  Forall (pool_is p) fs ->
  count_errors (map had_error_entry fs) = 1%nat ->
  (inject_Z c <= clk 0%nat)%Q ->
  exists w20,
    read_loop (map object_line fs) (boot (init 2 n c false) clk) = (Ok tt, w20)
    /\ sink w20 = [ {| alert_kind := error_rate;
                       alert_message := HighErrorRate 5 20;
                       alert_details := error_rate_details 5 2 1 20 |} ]
    /\ settings (self w20) = (2%float, n, c, false)
    /\ last_error_rate_alert (self w20) = clk 0%nat
    /\ next_reading w20 = clk 1%nat
    /\ (last_pool (self w20) = PNone \/ last_pool (self w20) = p).
Proof.
  intros Hn Hlen Hself Hp Herr Hfirst.
  destruct (twentieth_line_candidate n c clk p fs Hn Hlen Hself Hp Herr)
    as (wc & -> & Hs & Ht & Hk & Hset & He & Hl).
  pose proof Hset as Hset'. unfold settings in Hset'.
  injection Hset' as _ _ Hcd Hmm.
  rewrite send_slack_alert_fires.
  - eexists. split; [reflexivity |]. unfold next_reading.
    cbn [sink self add_sink map_self tick add_log record_firing settings
         with_last_error_rate_alert last_error_rate_alert last_pool
         clock ticks].
    rewrite Hs, Ht, Hk. repeat split; try exact Hl. exact Hset.
  - exact Hmm.
  - apply Qltb_ge. unfold next_reading. cbn [last_fired].
    rewrite Hcd, He, Ht, Hk. lra.
Qed.

(** With a first reading below the cooldown, it is dropped: the clock is
    read and nothing else changes. *)
Lemma twentieth_line_dropped (n : nat) (c : Z) (clk : nat -> Q) (p : pyval)
    (fs : list (gmap string pyval)) :
  (20 <= n)%nat ->
  length fs = 20%nat ->
  Py.differs p p = false ->
  Forall (pool_is p) fs ->
  count_errors (map had_error_entry fs) = 1%nat ->
  (clk 0%nat < inject_Z c)%Q ->
  exists w20,
    read_loop (map object_line fs) (boot (init 2 n c false) clk) = (Ok tt, w20)
    /\ sink w20 = []
    /\ ticks w20 = 1%nat
    /\ last_error_rate_alert (self w20) = 0%Q.
Proof.
  intros Hn Hlen Hself Hp Herr Hfirst.
  destruct (twentieth_line_candidate n c clk p fs Hn Hlen Hself Hp Herr)
    as (wc & -> & Hs & Ht & Hk & Hset & He & Hl).
  unfold settings in Hset. injection Hset as _ _ Hcd Hmm.
  rewrite send_slack_alert_cooldown.
  - eexists. split; [reflexivity |]. cbn [sink self tick ticks].
    rewrite Hs, Ht, He. auto.
  - exact Hmm.
  - apply Qltb_lt. unfold next_reading. cbn [last_fired].
    rewrite Hcd, He, Ht, Hk. lra.
Qed.

(** C1, as stated, fails.  The scenario names no clock reading, and the
    gate compares the reading with a timestamp that starts at 0: with
    [ALERT_COOLDOWN_SEC=9999999999] and the clock at 1762000000 s, twenty
    lines of pool blue, the last one with an error, raise the candidate at
    the 20th line (rate 5 against the threshold 2, the warning is logged and
    the clock is read once), and no alert is sent. *)
Lemma twentieth_event_alert_dropped_under_long_cooldown :
  let ok := object_line (<["pool" := PStr "blue"]>
                           (<["upstream_status" := PStr "200"]> ∅)) in
  let err := object_line (<["pool" := PStr "blue"]>
                            (<["upstream_status" := PStr "502"]> ∅)) in
  let lines := repeat ok 19 ++ [err] in
  let w0 := boot (init 2 200 9999999999 false) (fun _ => 1762000000%Q) in
  let w' := snd (tail_log lines w0) in
  fst (tail_log lines w0) = Ok tt
  /\ window_of w' = repeat false 19 ++ [true]
  /\ log w' = [InitialPoolDetected (PStr "blue");
               ErrorRateWarning (HighErrorRate 5 20)]
  /\ ticks w' = 1%nat
  /\ sink w' = [].
Proof. vm_compute. repeat split. Qed.

(** C1, amended.  In every world, [check_error_rate] hands no candidate to
    [send_slack_alert] while the window holds fewer than 20 values; with 20 or
    more it hands one over, after the warning record, exactly when the rate is
    greater than [error_threshold].  In the scenario (threshold 2, a window of
    at least 20, maintenance off, 20 decoded lines all of one pool [p] or of
    none, where [p != p] is false as for every pool name, exactly one of the
    lines with an error) [send_slack_alert] is not even called during the
    first 19 lines.  The 20th line calls it, and the one error-rate alert,
    with rate 5, goes out exactly when the clock reading is not below the
    cooldown: then a 21st line of the same shape read inside the cooldown
    sends no second one; with a reading below the cooldown the 20th line
    reads the clock and sends nothing. *)
Theorem error_rate_alerting (n : nat) (c : Z) (clk : nat -> Q) (p : pyval)
    (fs : list (gmap string pyval)) (f21 : gmap string pyval) :
  (20 <= n)%nat ->
  length fs = 20%nat ->
  Py.differs p p = false ->
  Forall (pool_is p) (f21 :: fs) ->
  count_errors (map had_error_entry fs) = 1%nat ->
  let w0 := boot (init 2 n c false) clk in
  let lines := map object_line fs in
  let the_alert :=
    {| alert_kind := error_rate;
       alert_message := HighErrorRate 5 20;
       alert_details := error_rate_details 5 2 1 20 |} in
  (forall w : world,
     let window := window_of w in
     ((length window < 20)%nat -> check_error_rate w = (Ok tt, w))
     /\ ((20 <= length window)%nat ->
         exists r, rate window = Ok r
           /\ check_error_rate w
              = if (error_threshold (self w) <? r)%float
                then send_slack_alert error_rate
                       (HighErrorRate r (length window))
                       (error_rate_details r (error_threshold (self w))
                          (count_errors window) (length window))
                       (add_log (ErrorRateWarning
                                   (HighErrorRate r (length window))) w)
                else (Ok tt, w)))
  /\ (forall j, (j < 20)%nat ->
        sink (snd (tail_log (firstn j lines) w0)) = []
        /\ ticks (snd (tail_log (firstn j lines) w0)) = 0%nat)
  /\ ((inject_Z c <= clk 0%nat)%Q ->
      sink (snd (tail_log lines w0)) = [the_alert]
      /\ ((clk 1%nat - clk 0%nat < inject_Z c)%Q ->
          sink (snd (tail_log (lines ++ [object_line f21]) w0)) = [the_alert]))
  /\ ((clk 0%nat < inject_Z c)%Q ->
      sink (snd (tail_log lines w0)) = []
      /\ ticks (snd (tail_log lines w0)) = 1%nat).
Proof.
  intros Hn Hlen Hself Hpool Herr w0 lines the_alert.
  apply Forall_cons_iff in Hpool as [Hp21 Hp].
  split; [| split; [| split; [intros Hfirst; split; [| intros Hcool] |]]].
  - (* the check, in any world *)
    intros w. cbv zeta. rewrite check_error_rate_run. cbv zeta. split.
    + intros Hl. apply Nat.ltb_lt in Hl. rewrite Hl. reflexivity.
    + intros Hl.
      exists (percent (count_errors (window_of w)) (length (window_of w))).
      split.
      * apply rate_nonempty. intros E. rewrite E in Hl. cbn in Hl. lia.
      * apply Nat.ltb_ge in Hl. rewrite Hl. reflexivity.
  - (* the first 19 lines, and any shorter prefix *)
    intros j Hj. unfold tail_log, log_and_reraise, lines.
    rewrite firstn_map.
    destruct (quiet_prefix p (firstn j fs) w0) as (w' & -> & Hc & _).
    + exact Hself.
    + apply Forall_take. exact Hp.
    + left. reflexivity.
    + cbn. rewrite length_firstn. lia.
    + destruct Hc as (Hs & Ht & _). cbn [snd]. rewrite Hs, Ht. split; reflexivity.
  - (* the 20th line *)
    destruct (twentieth_line_fires n c clk p fs Hn Hlen Hself Hp Herr Hfirst)
      as (w20 & Hrun & Hsink & _).
    unfold tail_log, log_and_reraise, lines, w0. rewrite Hrun. exact Hsink.
  - (* the 21st line, inside the cooldown *)
    destruct (twentieth_line_fires n c clk p fs Hn Hlen Hself Hp Herr Hfirst)
      as (w20 & Hrun & Hsink & Hset & Hlast & Hnext & Hlp).
    unfold settings in Hset. injection Hset as _ _ Hcd Hmm.
    unfold tail_log, log_and_reraise, lines, w0.
    rewrite read_loop_app, Hrun. cbn [read_loop]. unfold bind at 1.
    unfold object_line. rewrite process_line_object. unfold bind at 1.
    set (w20' := map_self _ w20).
    destruct (observe_pool_calm p (pool_entry f21) w20' Hself Hlp Hp21)
      as (w21 & -> & (Hs & Ht & Hk & Hg & He & _) & _).
    subst w20'.
    cbn [self sink ticks clock map_self with_request_window
         last_error_rate_alert] in Hs, Ht, Hk, He.
    unfold settings in Hg.
    cbn [self map_self with_request_window error_threshold window_size
         cooldown_sec maintenance_mode] in Hg.
    injection Hg as _ _ Hcd' Hmm'.
    pose proof (check_error_rate_returns w21) as Hr.
    pose proof (check_error_rate_in_cooldown w21) as Hq.
    destruct (check_error_rate w21) as [r w22].
    cbn [fst snd] in *. subst r. cbn [ret snd].
    rewrite Hq, Hs; [exact Hsink | congruence |].
    apply Qltb_lt. unfold next_reading in *.
    rewrite Ht, Hk, Hnext, He, Hlast, Hcd', Hcd. exact Hcool.
  - (* the 20th line, read before the clock reaches the cooldown *)
    intros Hfirst.
    destruct (twentieth_line_dropped n c clk p fs Hn Hlen Hself Hp Herr Hfirst)
      as (w20 & Hrun & Hsink & Hticks & _).
    unfold tail_log, log_and_reraise, lines, w0. rewrite Hrun.
    split; [exact Hsink | exact Hticks].
Qed.

(** Twenty lines from pool blue, one of them with status 502, then one more;
    the default window and cooldown, the clock a second further at each
    reading. *)
Lemma error_rate_alerting_witness :
  let entry := fun st : string =>
    <["pool" := PStr "blue"]>
      (<["upstream_status" := PStr st]> (∅ : gmap string pyval)) in
  let fs := repeat (entry "200") 9 ++ [entry "502"] ++ repeat (entry "200") 10 in
  let clk := fun t : nat => (1762000000 + inject_Z (Z.of_nat t))%Q in
  let w0 := boot (init 2 200 300 false) clk in
  let the_alert :=
    {| alert_kind := error_rate;
       alert_message := HighErrorRate 5 20;
       alert_details := error_rate_details 5 2 1 20 |} in
  sink (snd (tail_log (firstn 19 (map object_line fs)) w0)) = []
  /\ sink (snd (tail_log (map object_line fs) w0)) = [the_alert]
  /\ sink (snd (tail_log (map object_line fs ++ [object_line (entry "200")]) w0))
     = [the_alert].
Proof.
  intros entry fs clk w0 the_alert.
  pose proof (error_rate_alerting 200 300 clk (PStr "blue") fs (entry "200")
                ltac:(lia) eq_refl eq_refl
                ltac:(unfold fs; cbn [repeat app];
                      repeat (constructor; [right; vm_compute; reflexivity |]);
                      constructor)
                ltac:(vm_compute; reflexivity)) as (_ & Hbefore & Hfires & _).
  destruct (Hfires ltac:(vm_compute; discriminate)) as (H20 & H21).
  split; [exact (proj1 (Hbefore 19%nat ltac:(lia))) |].
  split; [exact H20 | exact (H21 ltac:(vm_compute; reflexivity))].
Defined.

(** * Further properties of the run *)

(** ** The methods as functions on the world *)

Lemma send_slack_alert_gate k m d w :
  send_slack_alert k m d w
  = (Ok tt, gate k {| alert_kind := k; alert_message := m; alert_details := d |} w).
Proof.
  unfold gate. destruct (maintenance_mode (self w)) eqn:Hm.
  - apply send_slack_alert_maintenance. exact Hm.
  - destruct (Qltb _ _) eqn:Hc.
    + apply send_slack_alert_cooldown; assumption.
    + apply send_slack_alert_fires; assumption.
Qed.

Lemma match_not_none {A} (v : pyval) (a b : A) :
  v <> PNone -> match v with PNone => a | _ => b end = b.
Proof. destruct v; congruence. Qed.

Lemma observe_pool_step pool w : observe_pool pool w = (Ok tt, pool_step pool w).
Proof.
  unfold observe_pool, pool_step. cbv zeta.
  destruct (truthy pool) eqn:Ht; [| reflexivity].
  destruct (is_none_or_not (last_pool (self w))) as [E | E].
  - rewrite check_failover_initial by exact E. rewrite E. reflexivity.
  - rewrite match_not_none by exact E.
    destruct (Py.differs pool (last_pool (self w))) eqn:Hd.
    + rewrite check_failover_switch; [| exact E | rewrite Ht, Hd; reflexivity].
      cbv zeta. rewrite send_slack_alert_gate. reflexivity.
    + rewrite check_failover_same; [| exact E | rewrite Ht, Hd; reflexivity].
      reflexivity.
Qed.

Lemma check_error_rate_step w : check_error_rate w = (Ok tt, rate_step w).
Proof.
  rewrite check_error_rate_run. unfold rate_step. cbv zeta.
  destruct (_ <? _)%nat; [reflexivity |].
  destruct (_ <? _)%float; [| reflexivity].
  apply send_slack_alert_gate.
Qed.

Lemma process_line_step fields w :
  process_line (Loaded (JObject fields)) w = (Ok tt, line_step fields w).
Proof.
  rewrite process_line_object. unfold bind, line_step.
  rewrite observe_pool_step, check_error_rate_step. reflexivity.
Qed.

(** A relation that holds along every step holds along the loop. *)
Lemma read_loop_rel (R : world -> world -> Prop) :
  (forall w, R w w) ->
  (forall w1 w2 w3, R w1 w2 -> R w2 w3 -> R w1 w3) ->
  (forall fields w, R w (line_step fields w)) ->
  forall lines w, R w (snd (read_loop lines w)).
Proof.
  intros Hrefl Htrans Hstep. induction lines as [| line rest IH]; intros w.
  - apply Hrefl.
  - cbn [read_loop]. unfold bind.
    destruct line as [| [fields | elements | v] | e].
    + apply IH.
    + rewrite process_line_step. eapply Htrans; [apply Hstep | apply IH].
    + apply Hrefl.
    + apply Hrefl.
    + apply Hrefl.
Qed.

Lemma tail_log_rel (R : world -> world -> Prop) :
  (forall w, R w w) ->
  (forall w1 w2 w3, R w1 w2 -> R w2 w3 -> R w1 w3) ->
  (forall fields w, R w (line_step fields w)) ->
  (forall e w, R w (add_log (WatcherError e) w)) ->
  forall lines w, R w (snd (tail_log lines w)).
Proof.
  intros Hrefl Htrans Hstep Hlog lines w.
  pose proof (read_loop_rel R Hrefl Htrans Hstep lines w) as H.
  unfold tail_log, log_and_reraise.
  destruct (read_loop lines w) as [[[] | e] w']; cbn [snd] in *; [exact H |].
  eapply Htrans; [exact H | apply Hlog].
Qed.

(** A relation that holds along the four kinds of state change holds along
    the processing of a line. *)
Lemma line_step_rel (R : world -> world -> Prop) :
  (forall w, R w w) ->
  (forall w1 w2 w3, R w1 w2 -> R w2 w3 -> R w1 w3) ->
  (forall d w, R w (map_self (with_request_window d) w)) ->
  (forall p w, R w (map_self (with_last_pool p) w)) ->
  (forall r w, R w (add_log r w)) ->
  (forall k a w, R w (gate k a w)) ->
  forall fields w, R w (line_step fields w).
Proof.
  intros Hrefl Htrans Hwin Hpool Hlog Hgate fields w.
  unfold line_step.
  match goal with
  | |- R _ (rate_step (pool_step _ ?w1)) =>
      assert (H1 : R w w1) by apply (Hwin (Deque.append (request_window (self w))
                                             (had_error_entry fields)) w);
      set (u := w1) in *
  end.
  assert (H2 : R u (pool_step (pool_entry fields) u)).
  { unfold pool_step. cbv zeta. destruct (truthy _); [| apply Hrefl].
    destruct (last_pool (self u)) eqn:E.
    - eapply Htrans; [apply Hpool | apply Hlog].
    - destruct (Py.differs _ _); [| apply Hrefl].
      eapply Htrans; [apply Hlog |]. eapply Htrans; [apply Hgate | apply Hpool].
    - destruct (Py.differs _ _); [| apply Hrefl].
      eapply Htrans; [apply Hlog |]. eapply Htrans; [apply Hgate | apply Hpool].
    - destruct (Py.differs _ _); [| apply Hrefl].
      eapply Htrans; [apply Hlog |]. eapply Htrans; [apply Hgate | apply Hpool]. }
  set (v := pool_step (pool_entry fields) u) in *.
  assert (H3 : R v (rate_step v)).
  { unfold rate_step. cbv zeta. destruct (_ <? _)%nat; [apply Hrefl |].
    destruct (_ <? _)%float; [| apply Hrefl].
    eapply Htrans; [apply Hlog | apply Hgate]. }
  eauto.
Qed.

(** ** Maintenance mode *)

Lemma muted_line fields w : muted w (line_step fields w).
Proof.
  apply line_step_rel; unfold muted; clear.
  - auto.
  - intros w1 w2 w3 H12 H23 Hm. destruct (H12 Hm) as (Hm2 & ? & ? & ?).
    destruct (H23 Hm2) as (Hm3 & ? & ? & ?). repeat split; congruence.
  - intros d w Hm. cbn. auto.
  - intros p w Hm. cbn. auto.
  - intros r w Hm. cbn. auto.
  - intros k a w Hm. unfold gate. rewrite Hm. cbn. auto.
Qed.

(** X1. In maintenance mode a run sends nothing and records no firing. *)
Theorem maintenance_mode_sends_nothing (lines : list loads) (w : world) :
  maintenance_mode (self w) = true ->
  let w' := snd (tail_log lines w) in
  sink w' = sink w
  /\ last_failover_alert (self w') = last_failover_alert (self w)
  /\ last_error_rate_alert (self w') = last_error_rate_alert (self w).
Proof.
  intros Hm w'. subst w'.
  assert (H : muted w (snd (tail_log lines w))).
  { apply tail_log_rel; clear.
    - unfold muted. auto.
    - unfold muted. intros w1 w2 w3 H12 H23 Hm.
      destruct (H12 Hm) as (Hm2 & ? & ? & ?).
      destruct (H23 Hm2) as (Hm3 & ? & ? & ?). repeat split; congruence.
    - apply muted_line.
    - unfold muted. intros e w Hm. cbn. auto. }
  apply H in Hm. tauto.
Qed.

Lemma maintenance_mode_sends_nothing_witness :
  let lines := repeat (object_line (<["upstream_status" := PStr "502"]> ∅)) 40 in
  sink (snd (tail_log lines
               (boot (init 2 200 300 true) (fun _ => 1762000000%Q)))) = [].
Proof.
  intros lines.
  apply (proj1 (maintenance_mode_sends_nothing lines
                  (boot (init 2 200 300 true) (fun _ => 1762000000%Q)) eq_refl)).
Defined.

(** ** What a run keeps *)

Lemma grows_refl w : grows w w.
Proof.
  unfold grows. repeat split; auto.
  - exists []. rewrite app_nil_r. split; [reflexivity | cbn; lia].
  - exists []. rewrite app_nil_r. reflexivity.
Qed.

Lemma grows_trans w1 w2 w3 : grows w1 w2 -> grows w2 w3 -> grows w1 w3.
Proof.
  intros (Hs & Hc & Ht & (n1 & Hn1 & Hl1) & (r1 & Hr1))
         (Hs' & Hc' & Ht' & (n2 & Hn2 & Hl2) & (r2 & Hr2)).
  unfold grows. repeat split; try congruence; try lia.
  - exists (n1 ++ n2). rewrite Hn2, Hn1, <- app_assoc, length_app.
    split; [reflexivity | lia].
  - exists (r1 ++ r2). rewrite Hr2, Hr1, <- app_assoc. reflexivity.
Qed.

Lemma grows_log r w : grows w (add_log r w).
Proof.
  unfold grows. cbn. repeat split; auto.
  - exists []. rewrite app_nil_r. split; [reflexivity | cbn; lia].
  - exists [r]. reflexivity.
Qed.

Lemma grows_gate k a w : grows w (gate k a w).
Proof.
  unfold grows, gate.
  destruct (maintenance_mode (self w)); [| destruct (Qltb _ _)]; cbn.
  - repeat split; auto.
    + exists []. rewrite app_nil_r. split; [reflexivity | cbn; lia].
    + exists [MaintenanceSuppressed k]. reflexivity.
  - repeat split; auto.
    + exists []. rewrite app_nil_r. split; [reflexivity | cbn; lia].
    + exists []. rewrite app_nil_r. reflexivity.
  - repeat split; auto.
    + destruct k; reflexivity.
    + exists [a]. split; [reflexivity | cbn; lia].
    + exists []. rewrite app_nil_r. reflexivity.
Qed.

Lemma grows_line fields w : grows w (line_step fields w).
Proof.
  apply line_step_rel.
  - apply grows_refl.
  - apply grows_trans.
  - intros d u. pose proof (grows_refl u) as H. unfold grows in *. cbn. exact H.
  - intros p u. pose proof (grows_refl u) as H. unfold grows in *. cbn. exact H.
  - apply grows_log.
  - apply grows_gate.
Qed.

Lemma line_step_ticks fields w : (ticks (line_step fields w) <= ticks w + 2)%nat.
Proof.
  assert (Hg : forall k a u, (ticks (gate k a u) <= S (ticks u))%nat).
  { intros k a u. unfold gate.
    destruct (maintenance_mode (self u)); [| destruct (Qltb _ _)]; cbn; lia. }
  unfold line_step.
  match goal with |- context [pool_step _ ?w1] => set (u := w1) end.
  assert (Hu : ticks u = ticks w) by reflexivity.
  assert (Hp : (ticks (pool_step (pool_entry fields) u) <= S (ticks u))%nat).
  { unfold pool_step. cbv zeta. destruct (truthy _); [| lia].
    destruct (last_pool (self u)); [cbn; lia | ..];
      (destruct (Py.differs _ _); [| lia]);
      cbn [ticks map_self];
      match goal with |- context [gate ?k ?a ?x] => pose proof (Hg k a x) as H end;
      cbn [ticks add_log] in H; exact H. }
  set (v := pool_step (pool_entry fields) u) in *.
  unfold rate_step. cbv zeta. destruct (_ <? _)%nat; [lia |].
  destruct (_ <? _)%float; [| lia].
  match goal with |- context [gate ?k ?a ?x] => pose proof (Hg k a x) as H end.
  cbn [ticks add_log] in H. lia.
Qed.

Lemma read_loop_ticks lines : forall w,
  (ticks (snd (read_loop lines w)) <= ticks w + 2 * length lines)%nat.
Proof.
  induction lines as [| line rest IH]; intros w; [cbn; lia |].
  cbn [read_loop length]. unfold bind.
  destruct line as [| [fields | elements | v] | e].
  - cbn. specialize (IH w). lia.
  - rewrite process_line_step. specialize (IH (line_step fields w)).
    pose proof (line_step_ticks fields w). lia.
  - cbn. lia.
  - cbn. lia.
  - cbn. lia.
Qed.

(** X2. A run keeps the settings and the clock, only appends to the sink and
    to the log, sends at most one alert per clock reading taken, and takes at
    most two readings per line. *)
Theorem run_only_appends (lines : list loads) (w : world) :
  let w' := snd (tail_log lines w) in
  settings (self w') = settings (self w)
  /\ clock w' = clock w
  /\ (ticks w <= ticks w' <= ticks w + 2 * length lines)%nat
  /\ (exists new, sink w' = sink w ++ new
                  /\ (length new <= ticks w' - ticks w)%nat)
  /\ exists records, log w' = log w ++ records.
Proof.
  cbv zeta.
  assert (H : grows w (snd (tail_log lines w))).
  { apply tail_log_rel.
    - apply grows_refl.
    - apply grows_trans.
    - apply grows_line.
    - intros e u. apply grows_log. }
  destruct H as (Hs & Hc & Ht & Hn & Hr).
  repeat split; auto.
  pose proof (read_loop_ticks lines w) as Hb.
  unfold tail_log, log_and_reraise.
  destruct (read_loop lines w) as [[[] | e] u]; cbn in *; exact Hb.
Qed.

(** ** At most one alert of a kind within a cooldown *)

Lemma count_kind_snoc k l a :
  count_kind k (l ++ [a])
  = (count_kind k l + if bool_decide (alert_kind a = k) then 1 else 0)%nat.
Proof.
  unfold count_kind. rewrite List.filter_app, length_app. cbn.
  destruct (bool_decide _); reflexivity.
Qed.

Lemma gate_ticks k a w : ticks (gate k a w) = S (ticks w).
Proof.
  unfold gate.
  destruct (maintenance_mode (self w)); [| destruct (Qltb _ _)]; reflexivity.
Qed.

Lemma pool_step_ticks pool w : (ticks w <= ticks (pool_step pool w) <= S (ticks w))%nat.
Proof.
  unfold pool_step. cbv zeta. destruct (truthy _); [| lia].
  destruct (last_pool (self w)); [cbn; lia | ..];
    (destruct (Py.differs _ _); [| lia]);
    cbn [ticks map_self]; rewrite gate_ticks; cbn; lia.
Qed.

Lemma fired_at_most_once_gate w0 n k k' a w :
  within_cooldown w0 n ->
  (ticks w < ticks w0 + n)%nat ->
  alert_kind a = k' ->
  fired_at_most_once w0 k w -> fired_at_most_once w0 k (gate k' a w).
Proof.
  intros Hcool Hn Ha (Hc & Ht & Hcd & Hcount). unfold gate.
  destruct (maintenance_mode (self w)); [| destruct (Qltb _ _) eqn:Hq].
  - unfold fired_at_most_once. cbn. repeat split; auto.
    destruct Hcount as [H | (H & i & Hi & Hl)]; [left; exact H | right].
    split; [exact H |]. exists i. split; [lia | exact Hl].
  - unfold fired_at_most_once. cbn. repeat split; auto.
    destruct Hcount as [H | (H & i & Hi & Hl)]; [left; exact H | right].
    split; [exact H |]. exists i. split; [lia | exact Hl].
  - unfold fired_at_most_once.
    cbn [clock ticks self sink add_sink map_self tick].
    split; [exact Hc |]. split; [lia |].
    split; [destruct k'; exact Hcd |].
    rewrite count_kind_snoc, Ha, last_fired_record_firing.
    destruct (decide (k = k')) as [<- | Hne].
    + rewrite bool_decide_eq_true_2 by reflexivity.
      destruct Hcount as [H | (H & i & Hi & Hl)].
      * right. split; [lia |]. exists (ticks w). split; [lia |].
        unfold next_reading. rewrite Hc. reflexivity.
      * exfalso. apply Qltb_ge in Hq. unfold next_reading in Hq.
        rewrite Hl, Hc, Hcd in Hq.
        pose proof (Hcool i (ticks w) ltac:(lia) ltac:(lia)) as Hlt. lra.
    + rewrite bool_decide_eq_false_2 by congruence. rewrite Nat.add_0_r.
      destruct Hcount as [H | (H & i & Hi & Hl)]; [left; exact H | right].
      split; [exact H |]. exists i. split; [lia | exact Hl].
Qed.

Lemma fired_at_most_once_frame w0 k (f : LogWatcher -> LogWatcher) w :
  (forall o, cooldown_sec (f o) = cooldown_sec o) ->
  (forall o, last_fired k (f o) = last_fired k o) ->
  fired_at_most_once w0 k w -> fired_at_most_once w0 k (map_self f w).
Proof.
  intros Hf1 Hf2 (Hc & Ht & Hcd & Hcount). unfold fired_at_most_once. cbn.
  rewrite Hf1, Hf2. auto.
Qed.

Lemma fired_at_most_once_log w0 k r w :
  fired_at_most_once w0 k w -> fired_at_most_once w0 k (add_log r w).
Proof. intros H. exact H. Qed.

Lemma fired_at_most_once_line w0 n k fields w :
  within_cooldown w0 n ->
  (ticks w + 2 <= ticks w0 + n)%nat ->
  fired_at_most_once w0 k w -> fired_at_most_once w0 k (line_step fields w).
Proof.
  intros Hcool Hn H. unfold line_step.
  match goal with |- context [pool_step _ ?w1] => set (u := w1) end.
  assert (Hu : fired_at_most_once w0 k u).
  { apply fired_at_most_once_frame;
      [reflexivity | destruct k; reflexivity | exact H]. }
  assert (Htu : ticks u = ticks w) by reflexivity.
  pose proof (pool_step_ticks (pool_entry fields) u) as Htv.
  assert (Hv : fired_at_most_once w0 k (pool_step (pool_entry fields) u)).
  { unfold pool_step. cbv zeta. destruct (truthy _); [| exact Hu].
    destruct (is_none_or_not (last_pool (self u))) as [E | E].
    - rewrite E. apply fired_at_most_once_log, fired_at_most_once_frame;
        [reflexivity | destruct k; reflexivity | exact Hu].
    - rewrite match_not_none by exact E.
      destruct (Py.differs _ _); [| exact Hu].
      apply fired_at_most_once_frame;
        [reflexivity | destruct k; reflexivity |].
      apply (fired_at_most_once_gate w0 n);
        [exact Hcool | cbn; lia | reflexivity |].
      apply fired_at_most_once_log. exact Hu. }
  set (v := pool_step (pool_entry fields) u) in *.
  unfold rate_step. cbv zeta. destruct (_ <? _)%nat; [exact Hv |].
  destruct (_ <? _)%float; [| exact Hv].
  apply (fired_at_most_once_gate w0 n);
    [exact Hcool | cbn; lia | reflexivity |].
  apply fired_at_most_once_log. exact Hv.
Qed.

Lemma fired_at_most_once_loop w0 n k lines : forall w,
  within_cooldown w0 n ->
  (ticks w + 2 * length lines <= ticks w0 + n)%nat ->
  fired_at_most_once w0 k w -> fired_at_most_once w0 k (snd (read_loop lines w)).
Proof.
  induction lines as [| line rest IH]; intros w Hcool Hn H; [exact H |].
  cbn [read_loop length] in *. unfold bind.
  destruct line as [| [fields | elements | v] | e].
  - apply IH; [exact Hcool | cbn; lia | exact H].
  - rewrite process_line_step.
    pose proof (line_step_ticks fields w) as Ht.
    apply IH; [exact Hcool | lia |].
    apply (fired_at_most_once_line w0 n); [exact Hcool | lia | exact H].
  - exact H.
  - exact H.
  - exact H.
Qed.

(** X3. When no two of the clock readings a run can take (two per line) are a
    cooldown apart, the run sends at most one alert of each kind, whatever
    the lines. *)
Theorem at_most_one_alert_per_cooldown (lines : list loads) (w : world)
    (k : alert_type) :
  within_cooldown w (2 * length lines) ->
  (count_kind k (sink (snd (tail_log lines w))) <= S (count_kind k (sink w)))%nat.
Proof.
  intros Hcool.
  assert (H : fired_at_most_once w k (snd (read_loop lines w))).
  { apply (fired_at_most_once_loop w (2 * length lines));
      [exact Hcool | lia |].
    unfold fired_at_most_once. auto. }
  unfold tail_log, log_and_reraise.
  destruct (read_loop lines w) as [[[] | e] w']; cbn [snd add_log sink] in *;
    destruct H as (_ & _ & _ & [H | (H & _)]); lia.
Qed.

Lemma at_most_one_alert_per_cooldown_witness :
  let line := fun (pool st : string) =>
    object_line (<["pool" := PStr pool]> (<["upstream_status" := PStr st]> ∅)) in
  let lines := repeat (line "blue" "502") 25
               ++ [line "green" "502"; line "blue" "502"; line "green" "502"] in
  let w := boot (init 2 200 300 false)
             (fun t => (1762000000 + inject_Z (Z.of_nat t))%Q) in
  (count_kind failover (sink (snd (tail_log lines w))) <= 1)%nat
  /\ (count_kind error_rate (sink (snd (tail_log lines w))) <= 1)%nat.
Proof.
  intros line lines w.
  assert (Hc : within_cooldown w (2 * length lines)).
  { intros i j Hi Hj. cbn in Hi, Hj |- *.
    assert (Hi' : (0 <= inject_Z (Z.of_nat i))%Q)
      by (change 0%Q with (inject_Z 0); rewrite <- Zle_Qle; lia).
    assert (Hj' : (inject_Z (Z.of_nat j) <= 56)%Q)
      by (change 56%Q with (inject_Z 56); rewrite <- Zle_Qle; lia).
    change (inject_Z 300) with 300%Q. lra. }
  split.
  - apply (at_most_one_alert_per_cooldown lines w failover Hc).
  - apply (at_most_one_alert_per_cooldown lines w error_rate Hc).
Defined.

(** ** Every alert sent is justified *)

Lemma count_errors_le (window : list bool) : (count_errors window <= length window)%nat.
Proof.
  rewrite count_errors_count_occ. apply count_occ_bound.
Qed.

Lemma sound_world_gate thr n k a w :
  sound_alert thr n a -> sound_world thr n w -> sound_world thr n (gate k a w).
Proof.
  intros Ha (Ht & Hm & Hl & Hp & Hs). unfold gate, sound_world.
  destruct (maintenance_mode (self w)); [| destruct (Qltb _ _)]; cbn.
  - repeat split; auto.
  - repeat split; auto.
  - repeat split; try (destruct k; assumption).
    apply Forall_app. split; [exact Hs | constructor; [exact Ha | constructor]].
Qed.

Lemma sound_world_line thr n fields w :
  sound_world thr n w -> sound_world thr n (line_step fields w).
Proof.
  intros (Ht & Hm & Hl & Hp & Hs). unfold line_step.
  match goal with |- context [pool_step _ ?w1] => set (u := w1) end.
  assert (Hu : sound_world thr n u).
  { unfold sound_world, u. cbn [self map_self with_request_window error_threshold
      request_window last_pool sink].
    rewrite append_maxlen. repeat split; auto.
    pose proof (append_bounded (request_window (self w)) (had_error_entry fields)) as Hb.
    rewrite append_maxlen, Hm in Hb. apply Hb. exact Hl. }
  clearbody u. clear Ht Hm Hl Hp Hs w.
  assert (Hv : sound_world thr n (pool_step (pool_entry fields) u)).
  { unfold pool_step. cbv zeta. destruct (truthy (pool_entry fields)) eqn:Hpt;
      [| exact Hu].
    destruct Hu as (Ht & Hm & Hl & Hp & Hs).
    destruct (is_none_or_not (last_pool (self u))) as [E | E].
    - rewrite E. unfold sound_world. cbn. repeat split; auto.
    - rewrite match_not_none by exact E.
      destruct (Py.differs _ _) eqn:Hd; [| unfold sound_world; repeat split; auto].
      destruct Hp as [Hp | Hp]; [contradiction |].
      assert (Hg : sound_world thr n
                     (gate failover
                        (failover_alert (last_pool (self u)) (pool_entry fields))
                        (add_log (FailoverWarning
                                    (TrafficSwitched (last_pool (self u))
                                       (pool_entry fields))) u))).
      { apply sound_world_gate; [| unfold sound_world; cbn; repeat split; auto].
        unfold sound_alert. cbn. repeat split; auto. }
      destruct Hg as (Ht' & Hm' & Hl' & _ & Hs').
      unfold sound_world. cbn. repeat split; auto. }
  set (v := pool_step (pool_entry fields) u) in *. clearbody v.
  unfold rate_step. cbv zeta.
  destruct (Nat.ltb_spec (length (window_of v)) 20) as [_ | H20]; [exact Hv |].
  destruct (_ <? _)%float eqn:Hr; [| exact Hv].
  apply sound_world_gate; [| exact Hv].
  destruct Hv as (Ht & Hm & Hl & Hp & Hs).
  unfold sound_alert. cbn [alert_message error_rate_alert].
  exists (count_errors (window_of v)). rewrite Ht in *.
  split; [reflexivity |]. split; [split; [exact H20 | exact Hl] |].
  split; [apply count_errors_le | exact Hr].
Qed.

Lemma sound_world_run thr n lines w :
  sound_world thr n w -> sound_world thr n (snd (tail_log lines w)).
Proof.
  apply (tail_log_rel (fun u u' => sound_world thr n u -> sound_world thr n u')).
  - auto.
  - auto.
  - intros fields u. apply sound_world_line.
  - intros e u H. exact H.
Qed.

Lemma sound_world_boot thr n c mm clk : sound_world thr n (boot (init thr n c mm) clk).
Proof. unfold sound_world. cbn. repeat split; auto. lia. Qed.

(** X4. Every alert a watcher sends after [__init__] is justified. *)
Theorem alerts_are_justified (threshold : float) (n : nat) (cooldown : Z)
    (maintenance : bool) (clk : nat -> Q) (lines : list loads) :
  let w' := snd (tail_log lines (boot (init threshold n cooldown maintenance) clk)) in
  Forall (sound_alert threshold n) (sink w')
  /\ (last_pool (self w') = PNone \/ truthy (last_pool (self w')) = true).
Proof.
  cbv zeta.
  destruct (sound_world_run threshold n lines _
              (sound_world_boot threshold n cooldown maintenance clk))
    as (_ & _ & _ & Hp & Hs).
  split; assumption.
Qed.

(** X5. With a window smaller than the 20 values [check_error_rate] asks for,
    no error-rate alert is ever sent. *)
Theorem small_window_never_alerts_on_errors (threshold : float) (n : nat)
    (cooldown : Z) (maintenance : bool) (clk : nat -> Q) (lines : list loads) :
  (n < 20)%nat ->
  let w' := snd (tail_log lines (boot (init threshold n cooldown maintenance) clk)) in
  count_kind error_rate (sink w') = 0%nat
  /\ (length (window_of w') <= n)%nat.
Proof.
  intros Hn. cbv zeta.
  destruct (sound_world_run threshold n lines _
              (sound_world_boot threshold n cooldown maintenance clk))
    as (_ & _ & Hl & _ & Hs).
  split; [| exact Hl].
  unfold count_kind.
  induction Hs as [| a l Ha _ IH]; [reflexivity |].
  cbn [List.filter]. unfold sound_alert in Ha.
  destruct (alert_message a) as [previous current | r total].
  - destruct Ha as (-> & _). cbn. exact IH.
  - destruct Ha as (errors & _ & Ht & _). lia.
Qed.

Lemma small_window_never_alerts_on_errors_witness :
  let lines := repeat (object_line (<["upstream_status" := PStr "502"]> ∅)) 40 in
  count_kind error_rate
    (sink (snd (tail_log lines
                  (boot (init 2 10 300 false) (fun _ => 1762000000%Q))))) = 0%nat.
Proof.
  intros lines.
  apply (proj1 (small_window_never_alerts_on_errors 2 10 300 false
                  (fun _ => 1762000000%Q) lines ltac:(lia))).
Defined.

(** ** Lines that do not decode *)

Lemma read_loop_skips_undecodable lines : forall w,
  read_loop lines w = read_loop (List.filter decodable lines) w.
Proof.
  induction lines as [| line rest IH]; intros w; [reflexivity |].
  destruct line as [| v | e].
  - cbn [List.filter decodable]. exact (IH w).
  - cbn [List.filter decodable read_loop]. unfold bind.
    destruct (process_line (Loaded v) w) as [[[] | e] w1]; [apply IH | reflexivity].
  - reflexivity.
Qed.

(** X6. Lines that fail to decode leave no trace. *)
Theorem undecodable_lines_leave_no_trace (lines : list loads) (w : world) :
  tail_log lines w = tail_log (List.filter decodable lines) w.
Proof.
  unfold tail_log, log_and_reraise.
  rewrite <- read_loop_skips_undecodable. reflexivity.
Qed.

Lemma accepted_escapes (line : loads) :
  accepted line = true <-> escapes line = None.
Proof.
  destruct line as [| [fields | elements | v] | e]; cbn; split; congruence.
Qed.

Lemma process_line_escapes (line : loads) (e : exn) (w : world) :
  escapes line = Some e -> process_line line w = (Raise e, w).
Proof.
  destruct line as [| [fields | elements | v] | e']; cbn [escapes];
    intros H; try discriminate; injection H as <-; reflexivity.
Qed.

Lemma read_loop_accepted lines : forall w,
  forallb accepted lines = true -> fst (read_loop lines w) = Ok tt.
Proof.
  induction lines as [| line rest IH]; intros w H; [reflexivity |].
  cbn [forallb] in H. apply andb_true_iff in H as [Ha Hr].
  cbn [read_loop]. unfold bind.
  destruct line as [| [fields | elements | v] | e]; try discriminate.
  - apply IH. exact Hr.
  - rewrite process_line_step. apply IH. exact Hr.
Qed.

(** An exception of the loop comes from a line that lets one escape, after
    lines that let none. *)
Lemma read_loop_raises lines : forall w e,
  fst (read_loop lines w) = Raise e ->
  exists good bad rest,
    lines = good ++ bad :: rest
    /\ forallb accepted good = true /\ escapes bad = Some e.
Proof.
  induction lines as [| line l IH]; intros w e H; [discriminate H |].
  destruct (escapes line) as [e' |] eqn:He.
  - cbn [read_loop] in H. unfold bind in H.
    rewrite (process_line_escapes line e' w He) in H. cbn [fst] in H.
    injection H as ->. exists [], line, l. auto.
  - cbn [read_loop] in H. unfold bind in H.
    assert (Hnext : exists w1, fst (read_loop l w1) = Raise e).
    { destruct line as [| [fields | elements | v] | e']; try discriminate He.
      - exists w. exact H.
      - rewrite process_line_step in H. eexists. exact H. }
    destruct Hnext as (w1 & H1).
    destruct (IH w1 e H1) as (good & bad & rest & -> & Hg & Hb).
    exists (line :: good), bad, rest. cbn [app forallb].
    rewrite (proj2 (accepted_escapes line) He), Hg. auto.
Qed.

Lemma tail_log_result lines w : fst (tail_log lines w) = fst (read_loop lines w).
Proof.
  unfold tail_log, log_and_reraise.
  destruct (read_loop lines w) as [[[] | e] u]; reflexivity.
Qed.

(** X7. The loop ends normally exactly when every line read decodes to an
    object or is rejected with [JSONDecodeError].  Otherwise it ends at the
    first other line, with the effects of the lines before it kept, the
    error logged, and the exception of that line raised: [AttributeError]
    when the line decodes to something that is no object, and what the
    decoding raised when it raises something else. *)
Theorem loop_ends_at_first_escaping_line (good rest : list loads) (bad : loads)
    (e : exn) (w : world) :
  forallb accepted good = true ->
  escapes bad = Some e ->
  fst (tail_log good w) = Ok tt
  /\ tail_log (good ++ bad :: rest) w
     = (Raise e, add_log (WatcherError e) (snd (tail_log good w)))
  /\ (forall lines : list loads,
        fst (tail_log lines w) = Ok tt <-> forallb accepted lines = true)
  /\ (forall (lines : list loads) (e' : exn),
        fst (tail_log lines w) = Raise e' ->
        exists good' bad' rest',
          lines = good' ++ bad' :: rest'
          /\ forallb accepted good' = true /\ escapes bad' = Some e').
Proof.
  intros Hg Hb.
  pose proof (read_loop_accepted good w Hg) as Hok.
  assert (Hgood : tail_log good w = read_loop good w).
  { unfold tail_log, log_and_reraise.
    destruct (read_loop good w) as [[[] | e0] u]; [reflexivity | discriminate]. }
  split; [rewrite Hgood; exact Hok |]. split; [| split].
  - rewrite Hgood. unfold tail_log, log_and_reraise. rewrite read_loop_app.
    destruct (read_loop good w) as [[[] | e0] u]; [| discriminate].
    cbn [snd read_loop]. unfold bind.
    rewrite (process_line_escapes bad e u Hb). reflexivity.
  - intros lines. rewrite tail_log_result. split.
    + intros H. destruct (forallb accepted lines) eqn:Hf; [reflexivity |].
      exfalso. clear Hg Hb Hok Hgood. revert w H.
      induction lines as [| line l IH]; intros w H; [discriminate Hf |].
      cbn [forallb] in Hf. cbn [read_loop] in H. unfold bind in H.
      destruct line as [| [fields | elements | v] | e0];
        cbn [accepted andb] in Hf; try discriminate H.
      * exact (IH Hf w H).
      * rewrite process_line_step in H. exact (IH Hf _ H).
    + apply read_loop_accepted.
  - intros lines e'. rewrite tail_log_result. apply read_loop_raises.
Qed.

Lemma loop_ends_at_first_escaping_line_witness :
  let line := object_line (<["upstream_status" := PStr "200"]> ∅) in
  let w := boot (init 2 200 300 false) (fun _ => 1762000000%Q) in
  fst (tail_log [line; JSONDecodeError; LoadsRaised RecursionError; line] w)
    = Raise RecursionError
  /\ window_of (snd (tail_log [line; JSONDecodeError; LoadsRaised RecursionError; line] w))
     = [false].
Proof.
  intros line w.
  pose proof (loop_ends_at_first_escaping_line [line; JSONDecodeError] [line]
                (LoadsRaised RecursionError) RecursionError w eq_refl eq_refl)
    as (_ & H & _).
  cbn [app] in H. rewrite H. split; reflexivity.
Defined.

(** ** The tracked pool *)

Lemma not_differs_PStr (v : pyval) (s : string) :
  Py.differs (PStr s) v = false -> v = PStr s.
Proof.
  unfold Py.differs. intros H. apply negb_false_iff in H.
  destruct v as [| [|] | x | t]; cbn in H; try discriminate.
  apply String.eqb_eq in H. congruence.
Qed.

Lemma gate_last_pool k a w : last_pool (self (gate k a w)) = last_pool (self w).
Proof.
  unfold gate.
  destruct (maintenance_mode (self w)); [| destruct (Qltb _ _)]; cbn;
    try reflexivity.
  destruct k; reflexivity.
Qed.

Lemma rate_step_last_pool w : last_pool (self (rate_step w)) = last_pool (self w).
Proof.
  unfold rate_step. cbv zeta. destruct (_ <? _)%nat; [reflexivity |].
  destruct (_ <? _)%float; [| reflexivity]. rewrite gate_last_pool. reflexivity.
Qed.

(** After a non-empty pool is observed, [last_pool] is that value, or the
    value it held before, which the pool read does not differ from. *)
Lemma pool_step_tracks (pool : pyval) (w : world) :
  if truthy pool
  then last_pool (self (pool_step pool w)) = pool
       \/ Py.differs pool (last_pool (self (pool_step pool w))) = false
  else pool_step pool w = w.
Proof.
  unfold pool_step. cbv zeta. destruct (truthy pool); [| reflexivity].
  destruct (is_none_or_not (last_pool (self w))) as [E | E].
  - rewrite E. left. reflexivity.
  - rewrite match_not_none by exact E.
    destruct (Py.differs pool (last_pool (self w))) eqn:Hd.
    + left. reflexivity.
    + right. exact Hd.
Qed.

Lemma line_step_tracks (fields : gmap string pyval) (w : world) :
  if truthy (pool_entry fields)
  then last_pool (self (line_step fields w)) = pool_entry fields
       \/ Py.differs (pool_entry fields) (last_pool (self (line_step fields w)))
          = false
  else last_pool (self (line_step fields w)) = last_pool (self w).
Proof.
  unfold line_step. rewrite rate_step_last_pool.
  match goal with |- context [pool_step _ ?w1] => set (u := w1) end.
  pose proof (pool_step_tracks (pool_entry fields) u) as H.
  destruct (truthy (pool_entry fields)); [exact H |]. rewrite H. reflexivity.
Qed.

Lemma read_loop_tracks lines : forall w,
  match last (pools_seen lines) with
  | None => last_pool (self (snd (read_loop lines w))) = last_pool (self w)
  | Some p =>
      last_pool (self (snd (read_loop lines w))) = p
      \/ Py.differs p (last_pool (self (snd (read_loop lines w)))) = false
  end.
Proof.
  induction lines as [| line rest IH]; intros w; [reflexivity |].
  cbn [read_loop pools_seen]. unfold bind.
  destruct line as [| [fields | elements | v] | e]; try reflexivity.
  - apply IH.
  - rewrite process_line_step.
    pose proof (line_step_tracks fields w) as Hl.
    specialize (IH (line_step fields w)).
    destruct (truthy (pool_entry fields)).
    + rewrite last_cons. destruct (last (pools_seen rest)); [exact IH |].
      rewrite IH. exact Hl.
    + destruct (last (pools_seen rest)); [exact IH |]. rewrite IH. exact Hl.
Qed.

(** X8. After a run [last_pool] is the last non-empty pool read, or a value
    that this pool did not differ from ([!=]) when it was read; when that
    pool is a string, [last_pool] is that string.  Without a non-empty pool
    among the lines, [last_pool] is unchanged. *)
Theorem tracked_pool_is_last_seen (lines : list loads) (w : world) :
  let w' := snd (tail_log lines w) in
  match last (pools_seen lines) with
  | None => last_pool (self w') = last_pool (self w)
  | Some p =>
      (last_pool (self w') = p \/ Py.differs p (last_pool (self w')) = false)
      /\ forall s, p = PStr s -> last_pool (self w') = PStr s
  end.
Proof.
  cbv zeta. rewrite tail_log_self.
  pose proof (read_loop_tracks lines w) as H.
  destruct (last (pools_seen lines)) as [p |]; [| exact H].
  split; [exact H |]. intros s ->.
  destruct H as [H | H]; [exact H | apply not_differs_PStr; exact H].
Qed.

(** ** A failover that the gate suppresses *)

(** X9. A failover whose alert the gate suppresses still moves [last_pool]
    to the new pool.  It is therefore not reported later: a pool that does
    not differ ([!=]) from the tracked one changes nothing, and a string
    pool does not differ from itself. *)
Theorem suppressed_failover_is_forgotten (pool : pyval) (w : world) :
  last_pool (self w) <> PNone ->
  truthy pool = true ->
  Py.differs pool (last_pool (self w)) = true ->
  should_fire (self w) failover (next_reading w) = false ->
  let w1 := snd (observe_pool pool w) in
  sink w1 = sink w
  /\ last_pool (self w1) = pool
  /\ (forall (q : pyval) (u : world),
        last_pool (self u) = pool -> Py.differs q pool = false ->
        observe_pool q u = (Ok tt, u))
  /\ (forall (s : string) (u : world),
        pool = PStr s -> last_pool (self u) = pool ->
        observe_pool pool u = (Ok tt, u)).
Proof.
  intros Hn Ht Hd Hs. cbv zeta.
  rewrite observe_pool_step. cbn [snd]. unfold pool_step. cbv zeta.
  rewrite Ht, match_not_none, Hd by exact Hn.
  assert (Hp : pool <> PNone) by (intros ->; discriminate).
  assert (Hlater : forall (q : pyval) (u : world),
             last_pool (self u) = pool -> Py.differs q pool = false ->
             observe_pool q u = (Ok tt, u)).
  { intros q u Hu Hq. rewrite observe_pool_step. unfold pool_step. cbv zeta.
    destruct (truthy q); [| reflexivity].
    rewrite Hu, match_not_none, Hq by exact Hp. reflexivity. }
  split; [| split; [| split]].
  - cbn [sink map_self]. unfold gate. cbn [self add_log].
    unfold should_fire in Hs. cbn [last_fired] in Hs.
    destruct (maintenance_mode (self w)); [reflexivity |].
    cbn [negb andb] in Hs. apply negb_false_iff in Hs.
    unfold next_reading in *. cbn [clock ticks add_log last_fired]. rewrite Hs.
    reflexivity.
  - reflexivity.
  - exact Hlater.
  - intros s u -> Hu. apply Hlater; [exact Hu |].
    unfold Py.differs. cbn [Py.equals]. rewrite String.eqb_refl. reflexivity.
Qed.

Lemma suppressed_failover_is_forgotten_witness :
  let o := with_last_pool (PStr "blue")
             (with_last_failover_alert 1762000000 (init 2 200 300 false)) in
  let w := boot o (fun _ => 1762000100%Q) in
  let w1 := snd (observe_pool (PStr "green") w) in
  sink w1 = []
  /\ last_pool (self w1) = PStr "green"
  /\ observe_pool (PStr "green") w1 = (Ok tt, w1).
Proof.
  intros o w w1.
  pose proof (suppressed_failover_is_forgotten (PStr "green") w
                ltac:(discriminate) eq_refl eq_refl
                ltac:(vm_compute; reflexivity)) as (Hs & Hp & _ & Hl).
  split; [exact Hs |]. split; [exact Hp |].
  exact (Hl "green" w1 eq_refl Hp).
Defined.

(** ** The status tokens *)

(** X10. The blank-token filter and the emptiness guard change nothing. *)
Theorem had_error_is_any_token_with_5 (upstream_status : pyval) :
  had_error_of upstream_status
  = existsb (startswith "5") (split ", " (Py.str upstream_status)).
Proof.
  apply eq_true_iff_eq. rewrite had_error_of_iff, existsb_exists. split.
  - intros (_ & tok & Hin & _ & H5). eauto.
  - intros (tok & Hin & H5). split.
    + destruct (truthy upstream_status) eqn:Ht; [reflexivity |].
      rewrite (falsy_no_5 upstream_status tok Ht Hin) in H5. discriminate.
    + exists tok. split; [exact Hin |]. split; [| exact H5].
      apply startswith_5_not_blank. exact H5.
Qed.

(** X11. The tokens joined by the separator give the value back. *)
Theorem status_tokens_join_back (upstream_status : pyval) :
  join ", " (split ", " (Py.str upstream_status)) = Py.str upstream_status.
Proof. apply join_split. discriminate. Qed.

(** ** A window without errors *)

Lemma SFltb_zero_sign (t : spec_float) (s : bool) :
  SFltb t (S754_zero s) = SFltb t (S754_zero false).
Proof. destruct t as [ | | | ? ? ?]; reflexivity. Qed.

(** No float is below [(0 / y) * 100] unless it is below zero. *)
Lemma not_below_zero_percent (threshold y : float) :
  (threshold <? 0)%float = false ->
  (threshold <? (0 / y) * 100)%float = false.
Proof.
  intros H. rewrite FloatAxioms.ltb_spec in *.
  rewrite FloatAxioms.mul_spec, FloatAxioms.div_spec.
  change (Prim2SF 0) with (S754_zero false) in *.
  change (Prim2SF 100) with (S754_finite false 7036874417766400 (-46)).
  unfold SF64mul, SF64div.
  destruct (Prim2SF y) as [s | s | | s m e]; cbn [SFdiv SFmul xorb].
  - destruct (Prim2SF threshold); reflexivity.
  - rewrite SFltb_zero_sign. exact H.
  - destruct (Prim2SF threshold); reflexivity.
  - rewrite SFltb_zero_sign. exact H.
Qed.

Lemma rate_step_no_errors (w : world) :
  count_errors (window_of w) = 0%nat ->
  (error_threshold (self w) <? 0)%float = false ->
  rate_step w = w.
Proof.
  intros He Ht. unfold rate_step. cbv zeta.
  destruct (_ <? _)%nat; [reflexivity |].
  rewrite He. unfold percent. change (float_of_nat 0) with 0%float.
  rewrite not_below_zero_percent by exact Ht. reflexivity.
Qed.

(** X12. A window without errors never raises an error-rate candidate when the
    threshold is not negative. *)
Theorem no_errors_no_candidate (w : world) :
  count_errors (window_of w) = 0%nat ->
  (error_threshold (self w) <? 0)%float = false ->
  check_error_rate w = (Ok tt, w).
Proof.
  intros He Ht. rewrite check_error_rate_step.
  rewrite rate_step_no_errors by assumption. reflexivity.
Qed.

Lemma no_errors_no_candidate_witness :
  let o := with_request_window
             {| Deque.maxlen := 200; Deque.items := repeat false 50 |}
             (init 2 200 300 false) in
  let w := boot o (fun _ => 1762000000%Q) in
  check_error_rate w = (Ok tt, w).
Proof.
  intros o w.
  apply (no_errors_no_candidate w); vm_compute; reflexivity.
Defined.

Lemma count_errors_all_false (window : list bool) :
  Forall (fun b : bool => b = false) window -> count_errors window = 0%nat.
Proof.
  intros H. rewrite count_errors_count_occ.
  induction H as [| b l -> _ IH]; [reflexivity | exact IH].
Qed.

Lemma append_all_false (d : Deque.deque) :
  Forall (fun b : bool => b = false) (Deque.items d) ->
  Forall (fun b : bool => b = false) (Deque.items (Deque.append d false)).
Proof.
  intros H.
  assert (Hl : Forall (fun b : bool => b = false) (Deque.items d ++ [false]))
    by (apply Forall_app; split; [exact H | repeat constructor]).
  unfold Deque.append. cbn [Deque.items].
  destruct (_ <? _)%nat; [| exact Hl].
  destruct (Deque.items d ++ [false]); [constructor |].
  inversion Hl; assumption.
Qed.

Lemma error_free_gate_failover thr a w :
  alert_kind a = failover ->
  error_free thr w -> error_free thr (gate failover a w).
Proof.
  intros Ha (Ht & Hw & Hc). unfold gate, error_free.
  destruct (maintenance_mode (self w)); [| destruct (Qltb _ _)];
    cbn [self sink add_log add_sink map_self tick window_of record_firing
         with_last_failover_alert request_window error_threshold];
    repeat split; auto.
  rewrite count_kind_snoc, Ha, Hc. reflexivity.
Qed.

Lemma error_free_line thr fields w :
  (thr <? 0)%float = false ->
  had_error_entry fields = false ->
  error_free thr w -> error_free thr (line_step fields w).
Proof.
  intros Hthr Hf (Ht & Hw & Hc). unfold line_step. rewrite Hf.
  match goal with |- context [pool_step _ ?w1] => set (u := w1) end.
  assert (Hu : error_free thr u).
  { unfold error_free, u, window_of. cbn. repeat split; auto.
    apply append_all_false. exact Hw. }
  clearbody u.
  assert (Hv : error_free thr (pool_step (pool_entry fields) u)).
  { unfold pool_step. cbv zeta. destruct (truthy _); [| exact Hu].
    destruct (is_none_or_not (last_pool (self u))) as [E | E].
    - rewrite E. exact Hu.
    - rewrite match_not_none by exact E.
      destruct (Py.differs _ _); [| exact Hu].
      apply (error_free_gate_failover thr
               (failover_alert (last_pool (self u)) (pool_entry fields))
               (add_log (FailoverWarning
                           (TrafficSwitched (last_pool (self u))
                              (pool_entry fields))) u) eq_refl) in Hu.
      exact Hu. }
  set (v := pool_step (pool_entry fields) u) in *. clearbody v.
  destruct Hv as (Ht' & Hw' & Hc').
  rewrite rate_step_no_errors;
    [repeat split; assumption | apply count_errors_all_false; exact Hw' |].
  rewrite Ht'. exact Hthr.
Qed.

(** X13. As long as no line read has an error, a watcher with a threshold that
    is not negative sends no error-rate alert. *)
Theorem no_errors_no_error_rate_alert (threshold : float) (n : nat) (cooldown : Z)
    (maintenance : bool) (clk : nat -> Q) (lines : list loads) :
  (threshold <? 0)%float = false ->
  Forall (fun b : bool => b = false) (pushed lines) ->
  count_kind error_rate
    (sink (snd (tail_log lines (boot (init threshold n cooldown maintenance) clk))))
  = 0%nat.
Proof.
  intros Hthr Hp.
  assert (H : forall w, error_free threshold w ->
                        error_free threshold (snd (read_loop lines w))).
  { induction lines as [| line rest IH]; intros w Hw; [exact Hw |].
    cbn [read_loop pushed] in *. unfold bind.
    destruct line as [| [fields | elements | v] | e]; try exact Hw.
    - apply IH; assumption.
    - rewrite process_line_step. inversion Hp as [| ? ? Hf Hrest]; subst.
      apply IH; [exact Hrest |]. apply error_free_line; assumption. }
  specialize (H (boot (init threshold n cooldown maintenance) clk)).
  unfold tail_log, log_and_reraise.
  destruct (read_loop lines _) as [[[] | e] w']; cbn [snd sink add_log] in *;
    apply H; repeat split; constructor.
Qed.

Lemma no_errors_no_error_rate_alert_witness :
  let line := fun pool : string =>
    object_line (<["pool" := PStr pool]> (<["upstream_status" := PStr "200, 404"]> ∅)) in
  let lines := repeat (line "blue") 30 ++ repeat (line "green") 30 in
  count_kind error_rate
    (sink (snd (tail_log lines
                  (boot (init 0 200 300 false) (fun _ => 1762000000%Q))))) = 0%nat.
Proof.
  intros line lines.
  apply (no_errors_no_error_rate_alert 0 200 300 false (fun _ => 1762000000%Q) lines).
  - vm_compute. reflexivity.
  - vm_compute. repeat constructor.
Defined.

(** ** The maintenance flag *)

Lemma lower_char_is (l : ascii) (c : ascii) :
  (l = "t" \/ l = "r" \/ l = "u" \/ l = "e")%char ->
  lower_char c = l <-> c = l \/ c = ascii_of_nat (nat_of_ascii l - 32).
Proof.
  intros [-> | [-> | [-> | ->]]];
    destruct c as [[] [] [] [] [] [] [] []]; vm_compute;
    (split; [intros H; first [discriminate H | auto] | intros [H | H]; first [discriminate H | reflexivity]]).
Qed.

(** X14. Which values of [MAINTENANCE_MODE] turn maintenance mode on. *)
Theorem maintenance_flag_values (value : option string) :
  maintenance_of_env value = true
  <-> exists c1 c2 c3 c4 : ascii,
        value = Some (String c1 (String c2 (String c3 (String c4 EmptyString))))
        /\ (c1 = "t" \/ c1 = "T")%char /\ (c2 = "r" \/ c2 = "R")%char
        /\ (c3 = "u" \/ c3 = "U")%char /\ (c4 = "e" \/ c4 = "E")%char.
Proof.
  unfold maintenance_of_env, getenv. rewrite String.eqb_eq. split.
  - destruct value as [s |]; cbn [default from_option id]; [| discriminate].
    destruct s as [| c1 [| c2 [| c3 [| c4 [| c5 s]]]]]; cbn [lower];
      try discriminate.
    intros H. injection H as H1 H2 H3 H4.
    apply (lower_char_is "t") in H1; [| auto].
    apply (lower_char_is "r") in H2; [| auto].
    apply (lower_char_is "u") in H3; [| auto].
    apply (lower_char_is "e") in H4; [| auto].
    exists c1, c2, c3, c4. auto.
  - intros (c1 & c2 & c3 & c4 & -> & H1 & H2 & H3 & H4).
    cbn [default from_option id lower].
    apply (lower_char_is "t") in H1; [| auto].
    apply (lower_char_is "r") in H2; [| auto].
    apply (lower_char_is "u") in H3; [| auto].
    apply (lower_char_is "e") in H4; [| auto].
    rewrite H1, H2, H3, H4. reflexivity.
Qed.
